(** * twai.py: the image flow, its progress loop and the text flow

    A shallow embedding of [src/twai/twai.py].  The handlers are written in a
    small state-and-exception monad over the session store, the outbox of
    Bot API calls and a discrete clock; the image provider, the Bot API and
    the user pressing Cancel are the environment, given as data so that every
    run can be evaluated.

    Time is counted in ticks of 0.1 s: the poll timeout [0.3] of the progress
    loop is 3 ticks and the HTTP timeout [180.0] is 1800 ticks.

    What the model takes from the libraries:
    - asyncio: a task is done once its coroutine has finished or it was
      cancelled; [wait_for] cancels what it waits for on a timeout;
      cancelling the future that [shield] returns does not reach the task
      inside; other tasks run only while the handler is suspended in an
      [await].  On the discrete clock a task that finishes on the very tick
      on which a bounded wait expires counts as finished within the wait;
      the statements about one iteration of the loop leave that tick out.
    - python-telegram-bot: [main] builds the application without
      [concurrent_updates] and registers blocking handlers, so the updates
      of the user are handled one after the other: an update that arrives
      while a handler runs waits until that handler has returned or raised.
      All handlers are in one group, the first whose filter accepts an
      update handles it; the conversation handler tries its entry points
      when no conversation is open, and otherwise the handlers of the
      state before the fallbacks.  This is [run_polling] below.  The
      sessions of the program therefore have no [cancel_press]: that field
      lets [cancel_command] run beside a running flow, which is what the
      [except asyncio.CancelledError] branch of the loop is written for and
      what [main] never does.
    - httpx: [raise_for_status] raises [HTTPStatusError] outside 200-299;
      [HTTPStatusError] is not a [RequestError].  The timeout of the client
      bounds each wait for the network, not the call as a whole; the
      provider of the model sends its reply in one piece after one wait, and
      replies that arrive in parts over a longer time are outside the model.
    - base64: [b64decode] is [binascii.a2b_base64] in its non-strict mode.
    - the text client builds its own list from the history it is given and
      does not mutate it. *)

From Stdlib Require Import ZArith Lia Bool.
From Stdlib Require Import Strings.String Strings.Ascii Strings.Byte.
From stdpp Require Import base option list gmap strings.

Local Open Scope string_scope.

(** ** Python values shared by the whole file *)

(** Reasons the Bot API gives with a [BadRequest]. *)
Inductive bad_request_reason :=
  | MessageNotModified
  | MessageToEditNotFound
  | OtherBadRequest (description : string).

(** The exception classes the program can meet, flattened: one constructor
    per leaf class, the [except] clauses are the [is_*] tests below. *)
Inductive exn :=
  (* asyncio *)
  | TimeoutError
  | CancelledError
  | InvalidStateError
  (* httpx.RequestError and its subclasses *)
  | ConnectError
  | ReadError
  | ConnectTimeout
  | ReadTimeout
  | RemoteProtocolError
  | TooManyRedirects
  (* httpx.HTTPStatusError: a sibling of RequestError under httpx.HTTPError *)
  | HTTPStatusError (status : Z)
  (* builtins *)
  | KeyError
  | IndexError
  | TypeError
  | ValueError
  | JSONDecodeError
  | AttributeError
  | BinasciiError
  (* telegram.error *)
  | BadRequest (reason : bad_request_reason)
  | TimedOut
  | NetworkError
  | Forbidden
  | RetryAfter.

(** [isinstance(e, httpx.RequestError)] *)
Definition is_RequestError (e : exn) : bool :=
  match e with
  | ConnectError | ReadError | ConnectTimeout | ReadTimeout
  | RemoteProtocolError | TooManyRedirects => true
  | _ => false
  end.

Definition is_KeyError (e : exn) : bool :=
  match e with KeyError => true | _ => false end.

Definition is_IndexError (e : exn) : bool :=
  match e with IndexError => true | _ => false end.

(** [isinstance(e, telegram.error.BadRequest)] *)
Definition is_BadRequest (e : exn) : bool :=
  match e with BadRequest _ => true | _ => false end.

(** [isinstance(e, telegram.error.TimedOut)] *)
Definition is_TimedOut (e : exn) : bool :=
  match e with TimedOut => true | _ => false end.

(** [isinstance(e, Exception)]: [CancelledError] derives from
    [BaseException] only. *)
Definition is_Exception (e : exn) : bool :=
  match e with CancelledError => false | _ => true end.

(** The outcome of a Python computation: a value or a raised exception. *)
Inductive result (A : Type) :=
  | Ok (a : A)
  | Raise (e : exn).
Arguments Ok {A} a.
Arguments Raise {A} e.

#[global] Instance result_ret : MRet result := λ A a, Ok a.
#[global] Instance result_bind : MBind result := λ A B f m,
  match m with
  | Ok a => f a
  | Raise e => Raise e
  end.

(** [try: m except ...: h e] *)
Definition try_except {A} (m : result A) (h : exn → result A) : result A :=
  match m with
  | Ok a => Ok a
  | Raise e => h e
  end.

(** ** base64 *)

Module Base64.
Local Open Scope Z_scope.

Definition Z_of_byte (b : byte) : Z := Z.of_N (Byte.to_N b).

(** Storing an [int] into an [unsigned char]. *)
Definition byte_of_Z (z : Z) : byte :=
  match Byte.of_N (Z.to_N (Z.land z 255)) with
  | Some b => b
  | None => x00
  end.

Definition Z_of_ascii (ch : ascii) : Z := Z.of_N (N_of_ascii ch).
Definition ascii_of_Z (z : Z) : ascii := ascii_of_N (Z.to_N z).

Definition BASE64_PAD : ascii := "="%char.

(** The alphabet [A-Za-z0-9+/], from a 6-bit value to its character. *)
Definition table_b2a_base64 (s : Z) : ascii :=
  if s <? 26 then ascii_of_Z (s + 65)
  else if s <? 52 then ascii_of_Z (s + 71)
  else if s <? 62 then ascii_of_Z (s - 4)
  else if s =? 62 then "+"%char
  else "/"%char.

(** ... and back; [None] for a character outside the alphabet. *)
Definition table_a2b_base64 (ch : ascii) : option Z :=
  let n := Z_of_ascii ch in
  if (65 <=? n) && (n <=? 90) then Some (n - 65)
  else if (97 <=? n) && (n <=? 122) then Some (n - 71)
  else if (48 <=? n) && (n <=? 57) then Some (n + 4)
  else if n =? 43 then Some 62
  else if n =? 47 then Some 63
  else None.

(** The four 6-bit values of three bytes [a], [b], [c]. *)
Definition sextet0 (a : Z) : Z := Z.shiftr a 2.
Definition sextet1 (a b : Z) : Z := Z.lor (Z.shiftl (Z.land a 3) 4) (Z.shiftr b 4).
Definition sextet2 (b c : Z) : Z := Z.lor (Z.shiftl (Z.land b 15) 2) (Z.shiftr c 6).
Definition sextet3 (c : Z) : Z := Z.land c 63.

(** [base64.b64encode]: three bytes give four characters; a tail of one or
    two bytes is filled with zero bits and padded with [=]. *)
Fixpoint b64encode (bs : list byte) : string :=
  match bs with
  | [] => EmptyString
  | [a] =>
      let a := Z_of_byte a in
      String (table_b2a_base64 (sextet0 a))
        (String (table_b2a_base64 (sextet1 a 0))
           (String BASE64_PAD (String BASE64_PAD EmptyString)))
  | [a; b] =>
      let a := Z_of_byte a in
      let b := Z_of_byte b in
      String (table_b2a_base64 (sextet0 a))
        (String (table_b2a_base64 (sextet1 a b))
           (String (table_b2a_base64 (sextet2 b 0))
              (String BASE64_PAD EmptyString)))
  | a :: b :: c :: rest =>
      let a := Z_of_byte a in
      let b := Z_of_byte b in
      let c := Z_of_byte c in
      String (table_b2a_base64 (sextet0 a))
        (String (table_b2a_base64 (sextet1 a b))
           (String (table_b2a_base64 (sextet2 b c))
              (String (table_b2a_base64 (sextet3 c))
                 (b64encode rest))))
  end.

(** The decoder of [binascii.a2b_base64] in its default, non-strict mode,
    which [base64.b64decode(s)] calls: the local variables of its loop. *)
Record a2b_state := {
  quad_pos : Z;
  leftchar : Z;
  pads : Z;
  bin_data : list byte }.

(** One character with a 6-bit value: the [switch (quad_pos)]. *)
Definition a2b_data (this_ch : Z) (st : a2b_state) : a2b_state :=
  if quad_pos st =? 0 then
    {| quad_pos := 1; leftchar := this_ch; pads := 0; bin_data := bin_data st |}
  else if quad_pos st =? 1 then
    {| quad_pos := 2; leftchar := Z.land this_ch 15; pads := 0;
       bin_data := bin_data st ++
         [byte_of_Z (Z.lor (Z.shiftl (leftchar st) 2) (Z.shiftr this_ch 4))] |}
  else if quad_pos st =? 2 then
    {| quad_pos := 3; leftchar := Z.land this_ch 3; pads := 0;
       bin_data := bin_data st ++
         [byte_of_Z (Z.lor (Z.shiftl (leftchar st) 4) (Z.shiftr this_ch 2))] |}
  else
    {| quad_pos := 0; leftchar := 0; pads := 0;
       bin_data := bin_data st ++
         [byte_of_Z (Z.lor (Z.shiftl (leftchar st) 6) this_ch)] |}.

(** The loop over the input.  A pad that completes a quad stops the parse
    ([goto done]); other pads and characters outside the alphabet are
    skipped; a quad left open at the end is an error. *)
Fixpoint a2b_loop (s : string) (st : a2b_state) : result (list byte) :=
  match s with
  | EmptyString =>
      if quad_pos st =? 0 then Ok (bin_data st) else Raise BinasciiError
  | String ch s' =>
      if Ascii.eqb ch BASE64_PAD then
        if (2 <=? quad_pos st) && (4 <=? quad_pos st + (pads st + 1)) then
          Ok (bin_data st)
        else
          a2b_loop s'
            {| quad_pos := quad_pos st; leftchar := leftchar st;
               pads := if 2 <=? quad_pos st then pads st + 1 else pads st;
               bin_data := bin_data st |}
      else
        match table_a2b_base64 ch with
        | None => a2b_loop s' st
        | Some this_ch => a2b_loop s' (a2b_data this_ch st)
        end
  end.

(** The state between two quads, with [out] decoded so far. *)
Definition a2b_start (out : list byte) : a2b_state :=
  {| quad_pos := 0; leftchar := 0; pads := 0; bin_data := out |}.

Definition a2b_base64 (s : string) : result (list byte) :=
  a2b_loop s (a2b_start []).

(** [base64.b64decode(s)] for a [str]: the text is encoded as ASCII first,
    which fails with [ValueError] on any other character. *)
Definition is_ascii_text (s : string) : bool :=
  forallb (λ ch, Z_of_ascii ch <? 128) (list_ascii_of_string s).

Definition b64decode (s : string) : result (list byte) :=
  if is_ascii_text s then a2b_base64 s else Raise ValueError.

(** The characters the decoder looks at: the alphabet and the pad.  All
    others are skipped by the loop. *)
Definition is_base64_char (ch : ascii) : bool :=
  Ascii.eqb ch BASE64_PAD ||
  match table_a2b_base64 ch with
  | Some _ => true
  | None => false
  end.

(** A text without the characters the decoder skips. *)
Fixpoint discard_ignored (s : string) : string :=
  match s with
  | EmptyString => EmptyString
  | String ch s' =>
      if is_base64_char ch then String ch (discard_ignored s')
      else discard_ignored s'
  end.

End Base64.

(** ** The image provider *)

Module Provider.
Import Base64.
Local Open Scope Z_scope.

#[local] Set Warnings "-register-all".

(** What [response.json()] returns.  [JNumber] stands for any JSON number:
    subscripting and decoding treat integers and floats alike. *)
Inductive json :=
  | JNull
  | JBool (b : bool)
  | JNumber (z : Z)
  | JString (s : string)
  | JArray (items : list json)
  | JObject (fields : list (string * json)).

Inductive key :=
  | KStr (s : string)
  | KInt (i : Z).

Fixpoint dict_get (fields : list (string * json)) (k : string) : option json :=
  match fields with
  | [] => None
  | (k', v) :: fields' => if String.eqb k' k then Some v else dict_get fields' k
  end.

(** A sequence index, negative ones counting from the end. *)
Definition seq_index {A} (l : list A) (i : Z) : option A :=
  if 0 <=? i then l !! Z.to_nat i
  else if 0 <=? Z.of_nat (length l) + i then l !! Z.to_nat (Z.of_nat (length l) + i)
  else None.

(** [v[k]] *)
Definition getitem (v : json) (k : key) : result json :=
  match v, k with
  | JObject fields, KStr s =>
      match dict_get fields s with Some x => Ok x | None => Raise KeyError end
  | JObject _, KInt _ => Raise KeyError
  | JArray items, KInt i =>
      match seq_index items i with Some x => Ok x | None => Raise IndexError end
  | JArray _, KStr _ => Raise TypeError
  | JString s, KInt i =>
      match seq_index (list_ascii_of_string s) i with
      | Some ch => Ok (JString (String ch EmptyString))
      | None => Raise IndexError
      end
  | JString _, KStr _ => Raise TypeError
  | _, _ => Raise TypeError
  end.

(** [base64.b64decode(v)] on a parsed JSON value: only a string decodes. *)
Definition b64decode_value (v : json) : result (list byte) :=
  match v with
  | JString s => b64decode s
  | _ => Raise TypeError
  end.

(** What the provider does with one request: it is silent for [latency]
    ticks and then answers in one piece, either with a response or with a
    failure of the transport. *)
Inductive http_reply :=
  | Response (status_code : Z) (body : option json)
  | TransportFailure (e : exn).

Record provider := {
  latency : nat;
  reply : http_reply }.

Record response := {
  status_code : Z;
  body : option json }.

(** [httpx.AsyncClient(timeout=180.0)] *)
Definition HTTP_TIMEOUT : nat := 1800.

(** [await client.post(...)] under a client timeout: the one wait for the
    reply is [latency p], and a wait longer than the timeout is a
    [ReadTimeout]. *)
Definition client_post (timeout : nat) (p : provider) : result response :=
  if (timeout <? latency p)%nat then Raise ReadTimeout
  else match reply p with
       | Response c b => Ok {| status_code := c; body := b |}
       | TransportFailure e => Raise e
       end.

Definition post_duration (timeout : nat) (p : provider) : nat :=
  Nat.min (latency p) timeout.

(** [response.raise_for_status()] *)
Definition raise_for_status (r : response) : result unit :=
  if (200 <=? status_code r) && (status_code r <=? 299) then Ok tt
  else Raise (HTTPStatusError (status_code r)).

(** [response.json()]: a body that is not JSON has no parse. *)
Definition response_json (r : response) : result json :=
  match body r with
  | Some data => Ok data
  | None => Raise JSONDecodeError
  end.

(** [data["artifacts"][0]["base64"]] *)
Definition payload_field (data : json) : result json :=
  artifacts ← getitem data (KStr "artifacts");
  artifact ← getitem artifacts (KInt 0);
  getitem artifact (KStr "base64").

(** [_image_api_call], lines 132-153.  [None] is the soft failure. *)
Definition _image_api_call (prompt : string) (p : provider)
  : result (option (list byte)) :=
  try_except
    (response ← client_post HTTP_TIMEOUT p;
     _ ← raise_for_status response;
     data ← response_json response;
     image_b64 ← payload_field data;
     image ← b64decode_value image_b64;
     mret (Some image))
    (λ e, if is_RequestError e || is_KeyError e || is_IndexError e
          then Ok None else Raise e).

(** How long the call runs. *)
Definition _image_api_call_duration (p : provider) : nat :=
  post_duration HTTP_TIMEOUT p.

End Provider.

(** ** The session, the event loop and the handlers' monad *)

Module Bot.
Import Provider.
Local Open Scope nat_scope.

(** One turn of the text conversation: role and text. *)
Definition turn : Type := string * string.

(** What [context.user_data] holds under its keys. *)
Inductive value :=
  | VTask (handle : nat)
  | VHistory (history : list turn).

(** An [asyncio.Task] running [_image_api_call]: the coroutine finishes at
    [finish_at] with [outcome] unless the task was cancelled before. *)
Record task := {
  finish_at : nat;
  outcome : result (option (list byte));
  cancelled : bool }.

Inductive markup :=
  | NoMarkup
  | main_menu_markup
  | cancel_markup.

(** The Bot API calls the handlers make. *)
Inductive bot_request :=
  | ReplyText (text : string) (reply_markup : markup)
  | EditMessageText (text : string) (message_id : nat)
  | DeleteMessage (message_id : nat)
  | SendPhoto (photo : list byte) (caption : string)
  | SendChatAction.

(** The session and its surroundings.  [outbox] logs every Bot API call with
    its failure, if any; [script] gives, for the calls of the flow under
    study in order, how long each takes and whether it fails (a call beyond
    the script succeeds at once); [cancel_press], when set, is the clock
    value at which [cancel_command] runs beside the flow under study, and
    it is not set in the sessions that [run_polling] goes through;
    [image_provider] answers the image request. *)
Record state := {
  clock : nat;
  user_data : gmap string value;
  tasks : list task;
  outbox : list (bot_request * option exn);
  script : list (nat * option exn);
  cancel_press : option nat;
  image_provider : provider }.

Definition set_clock (n : nat) (st : state) : state :=
  {| clock := n; user_data := user_data st; tasks := tasks st;
     outbox := outbox st; script := script st;
     cancel_press := cancel_press st; image_provider := image_provider st |}.

Definition set_user_data (ud : gmap string value) (st : state) : state :=
  {| clock := clock st; user_data := ud; tasks := tasks st;
     outbox := outbox st; script := script st;
     cancel_press := cancel_press st; image_provider := image_provider st |}.

Definition set_tasks (ts : list task) (st : state) : state :=
  {| clock := clock st; user_data := user_data st; tasks := ts;
     outbox := outbox st; script := script st;
     cancel_press := cancel_press st; image_provider := image_provider st |}.

Definition set_outbox (ob : list (bot_request * option exn)) (st : state) : state :=
  {| clock := clock st; user_data := user_data st; tasks := tasks st;
     outbox := ob; script := script st;
     cancel_press := cancel_press st; image_provider := image_provider st |}.

Definition set_script (sc : list (nat * option exn)) (st : state) : state :=
  {| clock := clock st; user_data := user_data st; tasks := tasks st;
     outbox := outbox st; script := sc;
     cancel_press := cancel_press st; image_provider := image_provider st |}.

Definition set_cancel_press (c : option nat) (st : state) : state :=
  {| clock := clock st; user_data := user_data st; tasks := tasks st;
     outbox := outbox st; script := script st;
     cancel_press := c; image_provider := image_provider st |}.

(** A handler: from a state to a value or an exception and the next state;
    [None] when the fuel of a loop ran out. *)
Definition M (A : Type) : Type := state → option (result A * state).

#[global] Instance M_ret : MRet M := λ A a st, Some (Ok a, st).
#[global] Instance M_bind : MBind M := λ A B f m st,
  match m st with
  | Some (Ok a, st') => f a st'
  | Some (Raise e, st') => Some (Raise e, st')
  | None => None
  end.

Definition raise {A} (e : exn) : M A := λ st, Some (Raise e, st).

(** [try: m except ...: h e]; an exception raised by [h] itself goes on. *)
Definition try_catch {A} (m : M A) (h : exn → M A) : M A := λ st,
  match m st with
  | Some (Raise e, st') => h e st'
  | r => r
  end.

Definition get_state : M state := λ st, Some (Ok st, st).
Definition modify (f : state → state) : M unit := λ st, Some (Ok tt, f st).
Definition lift {A} (r : result A) : M A := λ st, Some (r, st).

(** *** [context.user_data] *)

(** [key in context.user_data] *)
Definition contains (k : string) : M bool :=
  st ← get_state; mret (bool_decide (is_Some (user_data st !! k))).

(** [context.user_data[key]] *)
Definition getitem_user_data (k : string) : M value :=
  st ← get_state;
  match user_data st !! k with
  | Some v => mret v
  | None => raise KeyError
  end.

(** [context.user_data[key] = v] *)
Definition setitem_user_data (k : string) (v : value) : M unit :=
  modify (λ st, set_user_data (<[k := v]> (user_data st)) st).

(** [del context.user_data[key]] *)
Definition delitem_user_data (k : string) : M unit :=
  st ← get_state;
  match user_data st !! k with
  | Some _ => modify (λ st, set_user_data (delete k (user_data st)) st)
  | None => raise KeyError
  end.

(** *** Tasks *)

(** [task.done()] at the current clock value. *)
Definition task_is_done (now : nat) (t : task) : bool :=
  cancelled t || (finish_at t <=? now).

Definition done_at (handle : nat) (st : state) : bool :=
  match tasks st !! handle with
  | Some t => task_is_done (clock st) t
  | None => false
  end.

Definition task_done (handle : nat) : M bool :=
  st ← get_state; mret (done_at handle st).

(** What awaiting a finished task, or [task.result()], gives. *)
Definition result_at (handle : nat) (st : state) : result (option (list byte)) :=
  match tasks st !! handle with
  | Some t =>
      if cancelled t then Raise CancelledError
      else if finish_at t <=? clock st then outcome t
      else Raise InvalidStateError
  | None => Raise InvalidStateError
  end.

Definition task_result (handle : nat) : M (option (list byte)) :=
  st ← get_state; lift (result_at handle st).

(** [task.cancel()]: nothing on a finished task; a pending one is cancelled,
    [_image_api_call] having no handler for [CancelledError]. *)
Definition cancel_at (handle : nat) (st : state) : state :=
  match tasks st !! handle with
  | Some t =>
      if task_is_done (clock st) t then st
      else set_tasks
             (<[handle := {| finish_at := finish_at t; outcome := outcome t;
                             cancelled := true |}]> (tasks st)) st
  | None => st
  end.

Definition task_cancel (handle : nat) : M unit := modify (cancel_at handle).

(** [asyncio.create_task(_image_api_call(prompt))]: the handle of the new
    task. *)
Definition create_task (prompt : string) : M nat := λ st,
  let t := {| finish_at := clock st + _image_api_call_duration (image_provider st);
              outcome := _image_api_call prompt (image_provider st);
              cancelled := false |} in
  Some (Ok (length (tasks st)), set_tasks (tasks st ++ [t]) st).

(** *** The simple commands

    They are written over the way a Bot API call is made, [bot], since they
    run both as the flow under study and beside it. *)

Inductive conv_result :=
  | GET_IMAGE_PROMPT
  | END.

Section Commands.
Variable bot : bot_request → M unit.

(** [update.message.reply_text(...)]: the id of the message sent. *)
Definition reply_text (text : string) (reply_markup : markup) : M nat :=
  st ← get_state;
  bot (ReplyText text reply_markup);;
  mret (length (outbox st)).

Definition edit_message_text (text : string) (message_id : nat) : M unit :=
  bot (EditMessageText text message_id).

Definition delete_message (message_id : nat) : M unit :=
  bot (DeleteMessage message_id).

Definition send_photo (photo : list byte) (caption : string) : M unit :=
  bot (SendPhoto photo caption).

Definition send_chat_action : M unit := bot SendChatAction.

(** Lines 67-68. *)
Definition menu_command : M unit :=
  reply_text "Here is the main menu:" main_menu_markup;; mret tt.

Definition cleared_text : string :=
  "Our text conversation history has been cleared.".

Definition nothing_to_clear_text : string :=
  "There's no conversation history to clear.".

(** Lines 70-75. *)
Definition clear_command : M unit :=
  has_history ← contains "history";
  if has_history : bool then
    delitem_user_data "history";;
    reply_text cleared_text NoMarkup;;
    mret tt
  else
    reply_text nothing_to_clear_text NoMarkup;;
    mret tt.

(** Lines 79-85. *)
Definition image_entry : M conv_result :=
  reply_text "Please describe the image you want to create." cancel_markup;;
  mret GET_IMAGE_PROMPT.

(** Lines 155-160. *)
Definition cancel_command : M conv_result :=
  has_task ← contains "active_task";
  (if has_task : bool then
     v ← getitem_user_data "active_task";
     match v with
     | VTask handle => task_cancel handle
     | VHistory _ => raise AttributeError
     end
   else mret tt);;
  reply_text "Action cancelled." main_menu_markup;;
  mret END.

End Commands.

(** *** The event loop *)

Definition log_call (req : bot_request) (failure : option exn) (st : state) : state :=
  set_outbox (outbox st ++ [(req, failure)]) st.

(** A Bot API call of a handler running beside the flow under study: it is
    logged, and takes none of the flow's time or script. *)
Definition background_bot (req : bot_request) : M unit :=
  modify (log_call req None).

(** One tick of the clock.  When a [cancel_press] is due, the event loop
    runs [cancel_command] beside the suspended flow; with none set, only
    the clock goes on. *)
Definition tick (st : state) : state :=
  let st1 := set_clock (S (clock st)) st in
  match cancel_press st1 with
  | Some c =>
      if c <=? clock st1 then
        match cancel_command background_bot (set_cancel_press None st1) with
        | Some (_, st2) => st2
        | None => st1
        end
      else st1
  | None => st1
  end.

(** The flow under study is suspended for [d] ticks. *)
Definition sleep (d : nat) (st : state) : state := Nat.iter d tick st.

(** What the script has for the next Bot API call of the flow under study:
    how long it takes and whether it fails; a call beyond the script
    succeeds at once. *)
Definition next_call (st : state) : nat * option exn :=
  default (0, None) (head (script st)).

(** The state after that call: the request is logged with its failure, and
    the flow was suspended for the scripted time. *)
Definition after_call (req : bot_request) (st : state) : state :=
  sleep (next_call st).1
    (set_script (tail (script st)) (log_call req (next_call st).2 st)).

(** A Bot API call of the flow under study returns or raises. *)
Definition bot_call (req : bot_request) : M unit := λ st,
  Some (match (next_call st).2 with
        | None => Ok tt
        | Some e => Raise e
        end,
        after_call req st).

(** Something that can be awaited: whether it is done, what awaiting it
    gives once it is done, and what cancelling it does. *)
Record awaitable (A : Type) := {
  aw_done : state → bool;
  aw_result : state → result A;
  aw_cancel : state → state }.
Arguments aw_done {A} _ _.
Arguments aw_result {A} _ _.
Arguments aw_cancel {A} _ _.

Definition task_awaitable (handle : nat) : awaitable (option (list byte)) :=
  {| aw_done := done_at handle;
     aw_result := result_at handle;
     aw_cancel := cancel_at handle |}.

(** [asyncio.shield(a)]: the outer future finishes as [a] does; cancelling
    it does not reach [a]. *)
Definition shield {A} (a : awaitable A) : awaitable A :=
  {| aw_done := aw_done a;
     aw_result := aw_result a;
     aw_cancel := λ st, st |}.

(** The caller is suspended until [is_done] holds, for [n] ticks at most. *)
Fixpoint wait_ticks (n : nat) (is_done : state → bool) (st : state) : state :=
  if is_done st then st
  else match n with
       | 0 => st
       | S n' => wait_ticks n' is_done (tick st)
       end.

(** [asyncio.wait_for(a, timeout)]: on a timeout, [a] is cancelled and
    [TimeoutError] is raised.  What is done on the tick on which the
    timeout expires counts as done within the wait. *)
Definition wait_for {A} (a : awaitable A) (timeout : nat) : M A := λ st,
  let st' := wait_ticks timeout (aw_done a) st in
  if aw_done a st' then Some (aw_result a st', st')
  else Some (Raise TimeoutError, aw_cancel a st').

(** *** The image flow *)

Definition spinner_frames : list string :=
  ["⠋"; "⠙"; "⠹"; "⠸"; "⠼"; "⠴"; "⠦"; "⠧"; "⠇"; "⠏"].

(** [spinner_frames[i % len(spinner_frames)]] *)
Definition spinner_frame (i : nat) : string :=
  default "" (spinner_frames !! (i mod length spinner_frames)).

Definition processing_text (i : nat) : string :=
  "`Processing... " ++ spinner_frame i ++ "`".

Definition cancelled_text : string := "`🚫 Generation cancelled.`".

(** [timeout=0.3] *)
Definition POLL_TIMEOUT : nat := 3.

(** The [while] loop of lines 96-110.  [None] is the exit of the loop,
    [Some r] the [return r] inside it. *)
Fixpoint progress_loop (fuel : nat) (generation_task status_message i : nat)
  : M (option conv_result) :=
  match fuel with
  | 0 => λ _, None
  | S fuel' =>
      done ← task_done generation_task;
      if done : bool then mret None
      else
        r ← try_catch
              (wait_for (shield (task_awaitable generation_task)) POLL_TIMEOUT;;
               mret (i, None))
              (λ e,
                 match e with
                 | TimeoutError =>
                     let new_text := processing_text i in
                     try_catch
                       (edit_message_text bot_call new_text status_message)
                       (λ e', if is_BadRequest e' then mret tt else raise e');;
                     mret (i + 1, None)
                 | CancelledError =>
                     edit_message_text bot_call cancelled_text status_message;;
                     menu_command bot_call;;
                     mret (i, Some END)
                 | _ => raise e
                 end);
        match r with
        | (_, Some ret) => mret (Some ret)
        | (i', None) => progress_loop fuel' generation_task status_message i'
        end
  end.

Definition newline : string := String (ascii_of_nat 10) EmptyString.

Definition photo_caption (prompt : string) : string :=
  "Image generated for:" ++ newline ++ "*'" ++ prompt ++ "'*".

(** Lines 116-127: the photo, or the apology when there is none. *)
Definition send_image (prompt : string) (image_bytes : option (list byte)) : M unit :=
  match image_bytes with
  | Some photo =>
      try_catch
        (send_photo bot_call photo (photo_caption prompt))
        (λ e,
           if is_TimedOut e then
             reply_text bot_call
               "The upload to Telegram timed out. Please try again." NoMarkup;;
             mret tt
           else if is_Exception e then
             reply_text bot_call
               "An error occurred while sending the photo." NoMarkup;;
             mret tt
           else raise e)
  | None =>
      reply_text bot_call
        "Sorry, image generation failed. The prompt may have been rejected or the service may be unavailable."
        NoMarkup;;
      mret tt
  end.

(** Lines 112-130: what follows the loop when it is left by its condition. *)
Definition relay_result (prompt : string) (generation_task status_message : nat)
  : M conv_result :=
  image_bytes ← task_result generation_task;
  delitem_user_data "active_task";;
  delete_message bot_call status_message;;
  send_image prompt image_bytes;;
  menu_command bot_call;;
  mret END.

(** Lines 87-130. *)
Definition generate_image_from_prompt (fuel : nat) (prompt : string)
  : M conv_result :=
  status_message ← reply_text bot_call "`Initializing AI...`" NoMarkup;
  generation_task ← create_task prompt;
  setitem_user_data "active_task" (VTask generation_task);;
  r ← progress_loop fuel generation_task status_message 0;
  match r with
  | Some ret => mret ret
  | None => relay_result prompt generation_task status_message
  end.

(** *** Polling a task and awaiting it

    One bounded poll as the loop makes it, a sequence of such polls, and the
    plain [await task] they are compared with. *)

(** [wait_for(shield(task), timeout)], whatever it returns or raises. *)
Definition poll (handle timeout : nat) : M unit :=
  try_catch
    (wait_for (shield (task_awaitable handle)) timeout;; mret tt)
    (λ _, mret tt).

Fixpoint polls (handle : nat) (timeouts : list nat) : M unit :=
  match timeouts with
  | [] => mret tt
  | timeout :: timeouts' => poll handle timeout;; polls handle timeouts'
  end.

(** [await task]: the caller is suspended until the task is done, which it
    is at [finish_at] at the latest. *)
Definition await_task (handle : nat) : M (option (list byte)) := λ st,
  match tasks st !! handle with
  | Some t =>
      let st' := wait_ticks (finish_at t - clock st) (done_at handle) st in
      Some (result_at handle st', st')
  | None => Some (Raise InvalidStateError, st)
  end.

(** The same poll without the shield, for comparison. *)
Definition poll_unshielded (handle timeout : nat) : M unit :=
  try_catch
    (wait_for (task_awaitable handle) timeout;; mret tt)
    (λ _, mret tt).

(** *** What the flow did to its status message *)

Definition targets (message_id : nat) (req : bot_request) : bool :=
  match req with
  | EditMessageText _ m => m =? message_id
  | DeleteMessage m => m =? message_id
  | _ => false
  end.

(** The edits and deletions of message [message_id] in an outbox, in order. *)
Definition status_ops (message_id : nat) (ob : list (bot_request * option exn))
  : list bot_request :=
  filter (λ req, targets message_id req = true) (map fst ob).

(** [spinner_edit msg k] is the edit the loop makes with counter [k]. *)
Definition spinner_edit (message_id k : nat) : bot_request :=
  EditMessageText (processing_text k) message_id.

(** [later handle st st']: [st'] comes after [st] in a run; the clock went
    on, [user_data] is the same, and the task [handle] kept its finish time
    and outcome, and is unchanged if it was done already. *)
Definition later (handle : nat) (st st' : state) : Prop :=
  clock st ≤ clock st' ∧
  user_data st' = user_data st ∧
  length (tasks st') = length (tasks st) ∧
  ∀ t, tasks st !! handle = Some t →
    ∃ t', tasks st' !! handle = Some t' ∧
      finish_at t' = finish_at t ∧ outcome t' = outcome t ∧
      (task_is_done (clock st) t = true → t' = t).

(** [issued msg ops st st']: between [st] and [st'] the edits and deletions
    of message [msg] were exactly [ops]. *)
Definition issued (msg : nat) (ops : list bot_request) (st st' : state) : Prop :=
  status_ops msg (outbox st') = (status_ops msg (outbox st) ++ ops)%list.

(** How the loop ended, read off its result: the last operation on the
    status message after the spinner edits, and the state of the task. *)
Definition loop_end (handle msg : nat) (r : result (option conv_result))
    (fin : list bot_request) (st' : state) : Prop :=
  match r with
  | Ok None => fin = [] ∧ done_at handle st' = true
  | Ok (Some ret) =>
      ret = END ∧ fin = [EditMessageText cancelled_text msg] ∧
      result_at handle st' = Raise CancelledError
  | Raise e => fin = [] ∨ fin = [EditMessageText cancelled_text msg]
  end.

(** A handler that returns or raises from every state. *)
Definition total {A} (m : M A) : Prop := ∀ st, is_Some (m st).

(** *** The text flow *)

Section TextFlow.
(** [text_model.start_chat(history=h)] followed by
    [chat.send_message_async(text)]: the reply and [chat.history], or an
    exception; and the time the call takes. *)
Variable generate_text : list turn → string → result (string * list turn).
Variable generate_text_duration : nat.

(** Lines 163-174. *)
Definition handle_message (text : string) : M unit :=
  send_chat_action bot_call;;
  has_history ← contains "history";
  (if has_history : bool then mret tt
   else setitem_user_data "history" (VHistory []));;
  try_catch
    (v ← getitem_user_data "history";
     match v with
     | VHistory history =>
         modify (sleep generate_text_duration);;
         '(response_text, chat_history) ← lift (generate_text history text);
         setitem_user_data "history" (VHistory chat_history);;
         reply_text bot_call response_text NoMarkup;;
         mret tt
     | VTask _ => raise TypeError
     end)
    (λ e,
       if is_Exception e then
         reply_text bot_call
           "Sorry, an error occurred with the text generation." NoMarkup;;
         mret tt
       else raise e).

End TextFlow.

(** *** Notions the statements use *)

(** The conversation history of a session, empty when none is stored. *)
Definition stored_history (st : state) : list turn :=
  match user_data st !! "history" with
  | Some (VHistory history) => history
  | _ => []
  end.

(** The two failures of an edit that the specification calls benign:
    the content is unchanged, or the message is gone. *)
Definition is_benign_edit_failure (e : exn) : bool :=
  match e with
  | BadRequest MessageNotModified | BadRequest MessageToEditNotFound => true
  | _ => false
  end.

(** *** Sessions to run the flows in *)

(** A fresh session at clock 0. *)
Definition session (p : provider) (sc : list (nat * option exn))
    (press : option nat) : state :=
  {| clock := 0; user_data := ∅; tasks := []; outbox := [];
     script := sc; cancel_press := press; image_provider := p |}.

(** A provider reply that carries [image_b64] in the expected field. *)
Definition image_reply (image_b64 : string) : http_reply :=
  Response 200
    (Some (JObject [("artifacts", JArray [JObject [("base64", JString image_b64)]])])).

(** A provider that needs 10 s for an image. *)
Definition slow_provider : provider :=
  {| latency := 100; reply := image_reply "TWFu" |}.

(** The failure of an edit whose text the Bot API cannot parse. *)
Definition unparsable : exn := BadRequest (OtherBadRequest "Can't parse entities").

(** A session in the middle of the image flow: the task is pending, the
    first reply went out, and the next Bot API call will time out. *)
Definition stalled_session : state :=
  {| clock := 0; user_data := {["active_task" := VTask 0]};
     tasks := [{| finish_at := 100; outcome := Ok None; cancelled := false |}];
     outbox := [(ReplyText "`Initializing AI...`" NoMarkup, None)];
     script := [(1, Some TimedOut)];
     cancel_press := None; image_provider := slow_provider |}.


(** A text provider that is down. *)
Definition failing_text_model : list turn → string → result (string * list turn) :=
  λ _ _, Raise ValueError.

(** A provider whose reply has no artifact: the soft failure. *)
Definition empty_provider : provider :=
  {| latency := 7;
     reply := Response 200 (Some (JObject [("artifacts", JArray [])])) |}.

(** *** Notions of the further properties *)

Definition is_reply (req : bot_request) : Prop :=
  match req with
  | ReplyText _ _ => True
  | _ => False
  end.

(** [grows P st st']: between [st] and [st'] the outbox only got new
    entries at its end, and every new request satisfies [P]. *)
Definition grows (P : bot_request → Prop) (st st' : state) : Prop :=
  ∃ new, outbox st' = (outbox st ++ new)%list ∧ Forall (λ entry, P entry.1) new.

(** The requests the image flow can make: replies, edits and the deletion
    of its status message [msg], and the photo [image_bytes] holds, with the
    caption of [prompt]. *)
Definition flow_request (msg : nat) (prompt : string)
    (image_bytes : option (list byte)) (req : bot_request) : Prop :=
  match req with
  | ReplyText _ _ => True
  | EditMessageText _ m => m = msg
  | DeleteMessage m => m = msg
  | SendPhoto photo caption =>
      image_bytes = Some photo ∧ caption = photo_caption prompt
  | SendChatAction => False
  end.

(** What the task [handle] returned, if it did. *)
Definition returned_bytes (handle : nat) (st : state) : option (list byte) :=
  match result_at handle st with
  | Ok image_bytes => image_bytes
  | Raise _ => None
  end.

(** Every Bot API call of the script succeeds. *)
Definition calls_succeed (st : state) : Prop :=
  Forall (λ call : nat * option exn, call.2 = None) (script st).

(** The [except] clause of [handle_message], lines 172-174. *)
Definition text_apology (e : exn) : M unit :=
  if is_Exception e then
    reply_text bot_call
      "Sorry, an error occurred with the text generation." NoMarkup;;
    mret tt
  else raise e.

(** A session in which nobody presses Cancel and every Bot API call
    succeeds. *)
Definition calm (st : state) : Prop :=
  cancel_press st = None ∧ calls_succeed st.

(** [quietly new st st']: from [st] to [st'] time went on, the flow made
    exactly the requests [new], all of which succeeded, no task and nothing
    in [user_data] changed, and [st'] is calm. *)
Definition quietly (new : list bot_request) (st st' : state) : Prop :=
  tasks st' = tasks st ∧
  user_data st' = user_data st ∧
  clock st ≤ clock st' ∧
  outbox st' = (outbox st ++ map (λ req, (req, @None exn)) new)%list ∧
  calm st'.

Definition upload_timeout_text : string :=
  "The upload to Telegram timed out. Please try again.".

Definition upload_error_text : string :=
  "An error occurred while sending the photo.".

Definition generation_failed_text : string :=
  "Sorry, image generation failed. The prompt may have been rejected or the service may be unavailable.".

(** What is sent for the result of the task when the platform works. *)
Definition result_request (prompt : string) (image_bytes : option (list byte))
  : bot_request :=
  match image_bytes with
  | Some photo => SendPhoto photo (photo_caption prompt)
  | None => ReplyText generation_failed_text NoMarkup
  end.

(** A session with a finished image in the active slot. *)
Definition finished_session : state :=
  {| clock := 120; user_data := {["active_task" := VTask 0]};
     tasks := [{| finish_at := 100; outcome := Ok (Some ["M"; "a"; "n"]%byte);
                  cancelled := false |}];
     outbox := []; script := []; cancel_press := None;
     image_provider := slow_provider |}.

(** A text provider that answers and extends the history by the turn. *)
Definition echo_text_model : list turn → string → result (string * list turn) :=
  λ history text,
    Ok (("You said: " ++ text)%string,
        (history ++ [("user", text); ("model", ("You said: " ++ text)%string)])%list).


(** *** [main]: the handlers and the order in which updates reach them

    Lines 177-204.  The updates are the text messages of one user. *)

(** A message as the filters see it: a text that does not start with a bot
    command, or one that starts with the command [/command]. *)
Inductive message :=
  | TextMessage (text : string)
  | CommandMessage (command : string).

(** [update.message.text] *)
Definition message_text (m : message) : string :=
  match m with
  | TextMessage text => text
  | CommandMessage command => "/" ++ command
  end.

(** [filters.Regex("^literal$")] for a literal without special characters:
    [re.search] finds it at the start of the text, and [$] accepts the end
    of the text or a line break that ends it. *)
Definition Regex (literal : string) (m : message) : bool :=
  String.eqb (message_text m) literal ||
  String.eqb (message_text m) (literal ++ newline).

(** [filters.TEXT & ~filters.COMMAND] *)
Definition TEXT_not_COMMAND (m : message) : bool :=
  match m with
  | TextMessage text => negb (String.eqb text "")
  | CommandMessage _ => false
  end.

(** The filter of [CommandHandler(name, ...)]. *)
Definition Command (name : string) (m : message) : bool :=
  match m with
  | TextMessage _ => false
  | CommandMessage command => String.eqb command name
  end.

(** A handler: the filter and the callback; a callback returns the next
    state of the conversation, or nothing. *)
Definition handler : Type := (message → bool) * (message → M (option conv_result)).

(** The callback of the first handler that accepts the message. *)
Fixpoint first_match (handlers : list handler) (m : message)
  : option (M (option conv_result)) :=
  match handlers with
  | [] => None
  | (accepts, callback) :: handlers' =>
      if accepts m then Some (callback m) else first_match handlers' m
  end.

Definition returning_state (callback : M conv_result) : M (option conv_result) :=
  new_state ← callback; mret (Some new_state).

Definition returning_nothing (callback : M unit) : M (option conv_result) :=
  callback;; mret None.

Section Application.
(** The text client, the fuel of the progress loop, and
    [update.effective_user.first_name]. *)
Variable generate_text : list turn → string → result (string * list turn).
Variable generate_text_duration : nat.
Variable fuel : nat.
Variable user_name : string.

(** Lines 49-61. *)
Definition welcome_message : string :=
  "Hello, " ++ user_name ++ "! Welcome to your AI assistant." ++ newline ++ newline ++
  "**Here's what I can do:**" ++ newline ++ newline ++
  "💬 **Chat:** Just type any message to talk to me." ++ newline ++
  "✨ **Image:** Create a unique image from a text prompt." ++ newline ++
  "🧹 **Clear:** Start a fresh text conversation." ++ newline ++
  "📋 **Menu:** Bring back this keyboard menu." ++ newline ++
  "❓ **Help:** Show this message again.".

Definition start_command : M unit :=
  reply_text bot_call welcome_message main_menu_markup;; mret tt.

(** Lines 63-65. *)
Definition help_command : M unit := start_command.

(** The conversation handler of lines 181-190. *)
Definition entry_points : list handler :=
  [(Regex "Image ✨", λ _, returning_state (image_entry bot_call))].

Definition states (state_of_conversation : conv_result) : list handler :=
  match state_of_conversation with
  | GET_IMAGE_PROMPT =>
      [(TEXT_not_COMMAND,
        λ m, returning_state (generate_image_from_prompt fuel (message_text m)))]
  | END => []
  end.

Definition fallbacks : list handler :=
  [(Command "cancel", λ _, returning_state (cancel_command bot_call));
   (Regex "Cancel ❌", λ _, returning_state (cancel_command bot_call))].

(** [ConversationHandler.check_update]: [conversation] is the state kept
    for the user, [None] when no conversation is open. *)
Definition image_conv_handler (conversation : option conv_result) (m : message)
  : option (M (option conv_result)) :=
  match conversation with
  | None => first_match entry_points m
  | Some state_of_conversation =>
      match first_match (states state_of_conversation) m with
      | Some callback => Some callback
      | None => first_match fallbacks m
      end
  end.

(** The handlers added after it, lines 193-201. *)
Definition other_handlers : list handler :=
  [(Command "start", λ _, returning_nothing start_command);
   (Command "help", λ _, returning_nothing help_command);
   (Regex "Help ❓", λ _, returning_nothing help_command);
   (Command "menu", λ _, returning_nothing (menu_command bot_call));
   (Regex "Menu 📋", λ _, returning_nothing (menu_command bot_call));
   (Command "clear", λ _, returning_nothing (clear_command bot_call));
   (Regex "Clear 🧹", λ _, returning_nothing (clear_command bot_call));
   (TEXT_not_COMMAND,
    λ m, returning_nothing
           (handle_message generate_text generate_text_duration (message_text m)))].

(** What the conversation handler keeps after a callback: [END] closes the
    conversation, another state is stored, and a callback that returned
    nothing or raised leaves the state as it was. *)
Definition update_state (conversation : option conv_result)
    (r : result (option conv_result)) : option conv_result :=
  match r with
  | Ok (Some END) => None
  | Ok (Some new_state) => Some new_state
  | Ok None => conversation
  | Raise _ => conversation
  end.

(** One update: the conversation handler comes first; what the callback
    returned or raised is recorded, [None] for an update no handler
    accepts. *)
Definition process_update (conversation : option conv_result) (m : message)
    (st : state)
  : option (option conv_result * option (result (option conv_result)) * state) :=
  match image_conv_handler conversation m with
  | Some callback =>
      match callback st with
      | Some (r, st') => Some (update_state conversation r, Some r, st')
      | None => None
      end
  | None =>
      match first_match other_handlers m with
      | Some callback =>
          match callback st with
          | Some (r, st') => Some (conversation, Some r, st')
          | None => None
          end
      | None => Some (conversation, None, st)
      end
  end.

(** [app.run_polling]: the updates, each with the clock value at which the
    user sent it, are processed in order, one when the one before is
    finished and not before it was sent. *)
Fixpoint run_polling (updates : list (nat * message))
    (conversation : option conv_result) (st : state)
  : option (option conv_result * list (option (result (option conv_result))) * state) :=
  match updates with
  | [] => Some (conversation, [], st)
  | (sent_at, m) :: updates' =>
      match process_update conversation m (sleep (sent_at - clock st) st) with
      | Some (conversation', r, st') =>
          match run_polling updates' conversation' st' with
          | Some (conversation'', rs, st'') => Some (conversation'', r :: rs, st'')
          | None => None
          end
      | None => None
      end
  end.

End Application.

End Bot.

(** * Proofs *)

(** ** base64: decoding an encoding gives the bytes back *)

Module Base64Facts.
Import Base64.
Local Open Scope Z_scope.
Local Open Scope list_scope.

Lemma Z_of_byte_range (b : byte) : 0 <= Z_of_byte b < 256.
Proof.
  unfold Z_of_byte. pose proof (Byte.to_N_bounded b). lia.
Qed.

Lemma land_255 (z : Z) : Z.land z 255 = z mod 256.
Proof. change 255 with (Z.ones 8). rewrite Z.land_ones by lia. reflexivity. Qed.

Lemma land_63 (z : Z) : Z.land z 63 = z mod 64.
Proof. change 63 with (Z.ones 6). rewrite Z.land_ones by lia. reflexivity. Qed.

Lemma land_15 (z : Z) : Z.land z 15 = z mod 16.
Proof. change 15 with (Z.ones 4). rewrite Z.land_ones by lia. reflexivity. Qed.

Lemma land_3 (z : Z) : Z.land z 3 = z mod 4.
Proof. change 3 with (Z.ones 2). rewrite Z.land_ones by lia. reflexivity. Qed.

Lemma shiftr_2 (z : Z) : Z.shiftr z 2 = z / 4.
Proof. rewrite Z.shiftr_div_pow2 by lia. reflexivity. Qed.

Lemma shiftr_4 (z : Z) : Z.shiftr z 4 = z / 16.
Proof. rewrite Z.shiftr_div_pow2 by lia. reflexivity. Qed.

Lemma shiftr_6 (z : Z) : Z.shiftr z 6 = z / 64.
Proof. rewrite Z.shiftr_div_pow2 by lia. reflexivity. Qed.

(** An OR of a shifted value with bits below the shift is a sum. *)
Lemma lor_shiftl_low (x y k : Z) :
  0 <= k -> 0 <= y < 2 ^ k -> Z.lor (Z.shiftl x k) y = x * 2 ^ k + y.
Proof.
  intros Hk Hy. rewrite <- Z.shiftl_mul_pow2 by assumption.
  assert (Z.land (Z.shiftl x k) y = 0) as Hland.
  { apply Z.bits_inj'. intros n Hn. rewrite Z.land_spec, Z.bits_0.
    destruct (Z.lt_ge_cases n k) as [Hlt|Hge].
    - rewrite Z.shiftl_spec_low by assumption. reflexivity.
    - assert (Z.testbit y n = false) as ->; [|apply Bool.andb_false_r].
      destruct (Z.eq_dec y 0) as [->|Hy0]; [apply Z.bits_0|].
      apply Z.bits_above_log2; [lia|].
      apply Z.log2_lt_pow2; [lia|].
      apply Z.lt_le_trans with (2 ^ k); [lia|]. apply Z.pow_le_mono_r; lia. }
  rewrite Z.add_nocarry_lxor, Z.lxor_lor by exact Hland. reflexivity.
Qed.

Lemma lor_shiftl_2 (x y : Z) : 0 <= y < 4 -> Z.lor (Z.shiftl x 2) y = x * 4 + y.
Proof. intros H. rewrite lor_shiftl_low by (change (2 ^ 2) with 4; lia). reflexivity. Qed.

Lemma lor_shiftl_4 (x y : Z) : 0 <= y < 16 -> Z.lor (Z.shiftl x 4) y = x * 16 + y.
Proof. intros H. rewrite lor_shiftl_low by (change (2 ^ 4) with 16; lia). reflexivity. Qed.

Lemma lor_shiftl_6 (x y : Z) : 0 <= y < 64 -> Z.lor (Z.shiftl x 6) y = x * 64 + y.
Proof. intros H. rewrite lor_shiftl_low by (change (2 ^ 6) with 64; lia). reflexivity. Qed.

Ltac div_mod_lia := Z.to_euclidean_division_equations; lia.

Lemma sextet0_arith a : sextet0 a = a / 4.
Proof. apply shiftr_2. Qed.

Lemma sextet1_arith a b : 0 <= b < 256 -> sextet1 a b = (a mod 4) * 16 + b / 16.
Proof.
  intros Hb. unfold sextet1. rewrite land_3, shiftr_4.
  apply lor_shiftl_4. div_mod_lia.
Qed.

Lemma sextet2_arith b c : 0 <= c < 256 -> sextet2 b c = (b mod 16) * 4 + c / 64.
Proof.
  intros Hc. unfold sextet2. rewrite land_15, shiftr_6.
  apply lor_shiftl_2. div_mod_lia.
Qed.

Lemma sextet3_arith c : sextet3 c = c mod 64.
Proof. apply land_63. Qed.

Lemma sextet0_range a : 0 <= a < 256 -> 0 <= sextet0 a < 64.
Proof. intros. rewrite sextet0_arith. div_mod_lia. Qed.

Lemma sextet1_range a b : 0 <= b < 256 -> 0 <= sextet1 a b < 64.
Proof. intros. rewrite sextet1_arith by assumption. div_mod_lia. Qed.

Lemma sextet2_range b c : 0 <= c < 256 -> 0 <= sextet2 b c < 64.
Proof. intros. rewrite sextet2_arith by assumption. div_mod_lia. Qed.

Lemma sextet3_range c : 0 <= sextet3 c < 64.
Proof. rewrite sextet3_arith. div_mod_lia. Qed.

(** What the decoder rebuilds from them. *)
Lemma rebuild_first a b :
  0 <= a < 256 -> 0 <= b < 256 ->
  Z.lor (Z.shiftl (sextet0 a) 2) (Z.shiftr (sextet1 a b) 4) = a.
Proof.
  intros Ha Hb. rewrite shiftr_4, sextet0_arith, sextet1_arith by assumption.
  rewrite lor_shiftl_2 by div_mod_lia. div_mod_lia.
Qed.

Lemma rebuild_second a b c :
  0 <= b < 256 -> 0 <= c < 256 ->
  Z.lor (Z.shiftl (Z.land (sextet1 a b) 15) 4) (Z.shiftr (sextet2 b c) 2) = b.
Proof.
  intros Hb Hc. rewrite land_15, shiftr_2, sextet1_arith, sextet2_arith by assumption.
  rewrite lor_shiftl_4 by div_mod_lia. div_mod_lia.
Qed.

Lemma rebuild_third b c :
  0 <= c < 256 ->
  Z.lor (Z.shiftl (Z.land (sextet2 b c) 3) 6) (sextet3 c) = c.
Proof.
  intros Hc. rewrite land_3, sextet2_arith, sextet3_arith by assumption.
  rewrite lor_shiftl_6 by div_mod_lia. div_mod_lia.
Qed.

Lemma byte_of_Z_of_byte (b : byte) : byte_of_Z (Z_of_byte b) = b.
Proof.
  unfold byte_of_Z. rewrite land_255.
  rewrite Z.mod_small by apply Z_of_byte_range.
  unfold Z_of_byte. rewrite N2Z.id, Byte.of_to_N. reflexivity.
Qed.


Lemma byte_of_Z_eq (z : Z) (b : byte) : z = Z_of_byte b -> byte_of_Z z = b.
Proof. intros ->. apply byte_of_Z_of_byte. Qed.

(** Checking a property of the 64 values of the alphabet by evaluation. *)
Lemma forall_sextets (P : Z -> bool) :
  forallb P (map Z.of_nat (seq 0 64)) = true ->
  forall s, 0 <= s < 64 -> P s = true.
Proof.
  intros H s Hs. rewrite List.forallb_forall in H. apply H.
  apply List.in_map_iff. exists (Z.to_nat s). split; [lia|].
  apply List.in_seq. lia.
Qed.

Lemma table_a2b_b2a (s : Z) :
  0 <= s < 64 -> table_a2b_base64 (table_b2a_base64 s) = Some s.
Proof.
  intros Hs.
  pose proof (forall_sextets
    (fun s => match table_a2b_base64 (table_b2a_base64 s) with
              | Some s' => s' =? s
              | None => false
              end)) as H.
  specialize (H ltac:(vm_compute; reflexivity) s Hs). cbv beta in H.
  destruct (table_a2b_base64 (table_b2a_base64 s)) as [s'|]; [|discriminate].
  apply Z.eqb_eq in H. congruence.
Qed.

Lemma table_b2a_not_pad (s : Z) :
  0 <= s < 64 -> Ascii.eqb (table_b2a_base64 s) BASE64_PAD = false.
Proof.
  intros Hs.
  apply (forall_sextets (fun s => negb (Ascii.eqb (table_b2a_base64 s) BASE64_PAD)))
    in Hs; [|vm_compute; reflexivity].
  apply Bool.negb_true_iff in Hs. exact Hs.
Qed.

Lemma table_b2a_ascii (s : Z) :
  0 <= s < 64 -> (Z_of_ascii (table_b2a_base64 s) <? 128) = true.
Proof.
  intros Hs.
  apply (forall_sextets (fun s => Z_of_ascii (table_b2a_base64 s) <? 128));
    [vm_compute; reflexivity | exact Hs].
Qed.

(** One step of the loop on a character of the alphabet. *)
Lemma a2b_loop_data (s : Z) (rest : string) (st : a2b_state) :
  0 <= s < 64 ->
  a2b_loop (String (table_b2a_base64 s) rest) st = a2b_loop rest (a2b_data s st).
Proof.
  intros Hs. cbn [a2b_loop].
  rewrite table_b2a_not_pad, table_a2b_b2a by assumption. reflexivity.
Qed.

(** A full group of four characters gives its three bytes. *)
Lemma a2b_loop_group (a b c : byte) (rest : string) (out : list byte) :
  a2b_loop
    (String (table_b2a_base64 (sextet0 (Z_of_byte a)))
       (String (table_b2a_base64 (sextet1 (Z_of_byte a) (Z_of_byte b)))
          (String (table_b2a_base64 (sextet2 (Z_of_byte b) (Z_of_byte c)))
             (String (table_b2a_base64 (sextet3 (Z_of_byte c))) rest))))
    (a2b_start out)
  = a2b_loop rest (a2b_start (out ++ [a; b; c])).
Proof.
  pose proof (Z_of_byte_range a) as Ha.
  pose proof (Z_of_byte_range b) as Hb.
  pose proof (Z_of_byte_range c) as Hc.
  rewrite a2b_loop_data by (apply sextet0_range; assumption).
  rewrite a2b_loop_data by (apply sextet1_range; assumption).
  rewrite a2b_loop_data by (apply sextet2_range; assumption).
  rewrite a2b_loop_data by (apply sextet3_range; assumption).
  unfold a2b_data, a2b_start; cbn.
  rewrite (byte_of_Z_eq _ a) by (apply rebuild_first; assumption).
  rewrite (byte_of_Z_eq _ b) by (apply rebuild_second; assumption).
  rewrite (byte_of_Z_eq _ c) by (apply rebuild_third; assumption).
  rewrite <- !app_assoc. reflexivity.
Qed.


(** The padded tails. *)
Lemma a2b_loop_tail1 (a : byte) (out : list byte) :
  a2b_loop (b64encode [a]) (a2b_start out) = Ok (out ++ [a]).
Proof.
  pose proof (Z_of_byte_range a) as Ha.
  cbn [b64encode].
  rewrite a2b_loop_data by (apply sextet0_range; assumption).
  rewrite a2b_loop_data by (apply sextet1_range; lia).
  unfold a2b_data, a2b_start; cbn.
  rewrite (byte_of_Z_eq _ a) by (apply rebuild_first; [assumption | lia]).
  reflexivity.
Qed.

Lemma a2b_loop_tail2 (a b : byte) (out : list byte) :
  a2b_loop (b64encode [a; b]) (a2b_start out) = Ok (out ++ [a; b]).
Proof.
  pose proof (Z_of_byte_range a) as Ha.
  pose proof (Z_of_byte_range b) as Hb.
  cbn [b64encode].
  rewrite a2b_loop_data by (apply sextet0_range; assumption).
  rewrite a2b_loop_data by (apply sextet1_range; assumption).
  rewrite a2b_loop_data by (apply sextet2_range; lia).
  unfold a2b_data, a2b_start; cbn.
  rewrite (byte_of_Z_eq _ a) by (apply rebuild_first; assumption).
  rewrite (byte_of_Z_eq _ b) by (apply rebuild_second; [assumption | lia]).
  rewrite <- !app_assoc. reflexivity.
Qed.

Lemma a2b_loop_b64encode (n : nat) :
  forall (bs out : list byte),
    (length bs <= n)%nat ->
    a2b_loop (b64encode bs) (a2b_start out) = Ok (out ++ bs).
Proof.
  induction n as [|n IH]; intros bs out Hlen.
  - destruct bs; [|simpl in Hlen; lia]. rewrite app_nil_r. reflexivity.
  - destruct bs as [|a [|b [|c rest]]].
    + rewrite app_nil_r. reflexivity.
    + apply a2b_loop_tail1.
    + apply a2b_loop_tail2.
    + cbn [b64encode]. rewrite a2b_loop_group.
      rewrite IH by (simpl in Hlen; lia).
      rewrite <- app_assoc. reflexivity.
Qed.

Lemma a2b_base64_b64encode (bs : list byte) : a2b_base64 (b64encode bs) = Ok bs.
Proof. apply (a2b_loop_b64encode (length bs) bs []). lia. Qed.

Lemma is_ascii_text_b64encode (n : nat) :
  forall bs : list byte, (length bs <= n)%nat -> is_ascii_text (b64encode bs) = true.
Proof.
  unfold is_ascii_text.
  induction n as [|n IH]; intros bs Hlen.
  - destruct bs; [reflexivity | simpl in Hlen; lia].
  - destruct bs as [|a [|b [|c rest]]]; [reflexivity|..].
    + pose proof (Z_of_byte_range a).
      cbn [b64encode list_ascii_of_string forallb].
      rewrite !table_b2a_ascii; [reflexivity|..];
        first [apply sextet0_range | apply sextet1_range]; lia.
    + pose proof (Z_of_byte_range a). pose proof (Z_of_byte_range b).
      cbn [b64encode list_ascii_of_string forallb].
      rewrite !table_b2a_ascii; [reflexivity|..];
        first [apply sextet0_range | apply sextet1_range | apply sextet2_range]; lia.
    + pose proof (Z_of_byte_range a). pose proof (Z_of_byte_range b).
      pose proof (Z_of_byte_range c).
      cbn [b64encode list_ascii_of_string forallb].
      rewrite !table_b2a_ascii;
        [ | first [apply sextet0_range | apply sextet1_range
                  | apply sextet2_range | apply sextet3_range]; lia ..].
      cbn [andb]. apply IH. simpl in Hlen; lia.
Qed.

(** [base64.b64decode(base64.b64encode(bs)) == bs] *)
Lemma b64decode_b64encode (bs : list byte) : b64decode (b64encode bs) = Ok bs.
Proof.
  unfold b64decode.
  rewrite (is_ascii_text_b64encode (length bs)) by lia.
  apply a2b_base64_b64encode.
Qed.

End Base64Facts.

(** ** The image provider call *)

Module ProviderFacts.
Import Base64 Provider Base64Facts.
Local Open Scope Z_scope.

Lemma bind_Ok {A B} (a : A) (f : A -> result B) : (Ok a ≫= f) = f a.
Proof. reflexivity. Qed.

Lemma bind_Raise {A B} (e : exn) (f : A -> result B) : (Raise e ≫= f) = Raise e.
Proof. reflexivity. Qed.

Lemma client_post_response (lat : nat) (code : Z) (b : option json) :
  (lat <= HTTP_TIMEOUT)%nat ->
  client_post HTTP_TIMEOUT {| latency := lat; reply := Response code b |}
  = Ok {| status_code := code; body := b |}.
Proof.
  intros Hlat. unfold client_post; cbn [latency reply].
  destruct (Nat.ltb_spec HTTP_TIMEOUT lat); [lia | reflexivity].
Qed.

Lemma raise_for_status_success (code : Z) (b : option json) :
  200 <= code <= 299 ->
  raise_for_status {| status_code := code; body := b |} = Ok tt.
Proof.
  intros Hcode. unfold raise_for_status; cbn [status_code].
  destruct (Z.leb_spec 200 code); [|lia].
  destruct (Z.leb_spec code 299); [|lia]. reflexivity.
Qed.

Lemma raise_for_status_error (code : Z) (b : option json) :
  code < 200 \/ 299 < code ->
  raise_for_status {| status_code := code; body := b |} = Raise (HTTPStatusError code).
Proof.
  intros Hcode. unfold raise_for_status; cbn [status_code].
  destruct (Z.leb_spec 200 code); destruct (Z.leb_spec code 299);
    first [reflexivity | lia].
Qed.

(** A failure of the transport is a soft failure. *)
Lemma image_api_call_network_error (prompt : string) (lat : nat) (e : exn) :
  is_RequestError e = true ->
  _image_api_call prompt {| latency := lat; reply := TransportFailure e |} = Ok None.
Proof.
  intros He. unfold _image_api_call, client_post; cbn [latency reply].
  destruct (HTTP_TIMEOUT <? lat)%nat; cbn; [reflexivity|].
  rewrite He. reflexivity.
Qed.

(** So is a payload in which a key or the first artifact is missing. *)
Lemma image_api_call_missing_field (prompt : string) (lat : nat) (code : Z) (data : json) :
  (lat <= HTTP_TIMEOUT)%nat -> 200 <= code <= 299 ->
  payload_field data = Raise KeyError \/ payload_field data = Raise IndexError ->
  _image_api_call prompt {| latency := lat; reply := Response code (Some data) |} = Ok None.
Proof.
  intros Hlat Hcode Hfield. unfold _image_api_call.
  rewrite client_post_response, bind_Ok by assumption.
  rewrite raise_for_status_success, bind_Ok by assumption.
  change (response_json {| status_code := code; body := Some data |}) with (Ok data).
  rewrite bind_Ok.
  destruct Hfield as [-> | ->]; reflexivity.
Qed.

(** ** C7 *)

(** C7.  When the provider answers in time with a success status and a
    payload whose field [data["artifacts"][0]["base64"]] is the base64
    encoding of the bytes [B], [_image_api_call] returns exactly [B]. *)
Theorem image_api_call_returns_payload_bytes
  (B : list byte) (prompt : string) (lat : nat) (code : Z) (data : json) :
  (lat <= HTTP_TIMEOUT)%nat ->
  200 <= code <= 299 ->
  payload_field data = Ok (JString (b64encode B)) ->
  _image_api_call prompt {| latency := lat; reply := Response code (Some data) |}
  = Ok (Some B).
Proof.
  intros Hlat Hcode Hfield. unfold _image_api_call.
  rewrite client_post_response, bind_Ok by assumption.
  rewrite raise_for_status_success, bind_Ok by assumption.
  change (response_json {| status_code := code; body := Some data |}) with (Ok data).
  rewrite bind_Ok, Hfield, bind_Ok.
  unfold b64decode_value. rewrite b64decode_b64encode. reflexivity.
Qed.

Lemma image_api_call_returns_payload_bytes_witness :
  _image_api_call "a red fox"
    {| latency := 40;
       reply := Response 200
         (Some (JObject
            [("artifacts",
              JArray [JObject [("base64", JString (b64encode [x89; x50; x4e; x47]));
                               ("finishReason", JString "SUCCESS")]])])) |}
  = Ok (Some [x89; x50; x4e; x47]).
Proof.
  apply image_api_call_returns_payload_bytes.
  - unfold HTTP_TIMEOUT. lia.
  - lia.
  - reflexivity.
Defined.

(** ** C2 *)

(** C2, at the input where the code departs from it.  A reply with a status
    outside 200-299 makes [raise_for_status] raise [HTTPStatusError], which
    is not an [httpx.RequestError], a [KeyError] or an [IndexError]: the
    exception leaves [_image_api_call] instead of the soft failure [None]. *)
Theorem image_api_call_http_error_escapes
  (prompt : string) (lat : nat) (code : Z) (b : option json) :
  (lat <= HTTP_TIMEOUT)%nat ->
  code < 200 \/ 299 < code ->
  _image_api_call prompt {| latency := lat; reply := Response code b |}
  = Raise (HTTPStatusError code).
Proof.
  intros Hlat Hcode. unfold _image_api_call.
  rewrite client_post_response, bind_Ok by assumption.
  rewrite raise_for_status_error by assumption. reflexivity.
Qed.

Lemma image_api_call_http_error_escapes_witness :
  _image_api_call "sunset"
    {| latency := 7;
       reply := Response 500 (Some (JObject [("message", JString "internal error")])) |}
  = Raise (HTTPStatusError 500).
Proof.
  apply image_api_call_http_error_escapes.
  - unfold HTTP_TIMEOUT. lia.
  - right. lia.
Defined.

(** A payload field of the wrong type is no soft failure either. *)
Example image_api_call_malformed_field_escapes :
  _image_api_call "sunset"
    {| latency := 7;
       reply := Response 200 (Some (JObject [("artifacts", JNull)])) |}
  = Raise TypeError.
Proof. reflexivity. Qed.

End ProviderFacts.

(** ** The event loop *)

Module BotFacts.
Import Provider Bot.
Local Open Scope nat_scope.
Local Open Scope list_scope.

(** [cancel_command] run beside the flow, written out. *)
Lemma cancel_command_background (st : state) :
  cancel_command background_bot st =
  match user_data st !! "active_task" with
  | Some (VTask handle) =>
      Some (Ok END,
            log_call (ReplyText "Action cancelled." main_menu_markup) None
              (cancel_at handle st))
  | Some (VHistory _) => Some (Raise AttributeError, st)
  | None =>
      Some (Ok END,
            log_call (ReplyText "Action cancelled." main_menu_markup) None st)
  end.
Proof.
  unfold cancel_command, contains, getitem_user_data.
  cbv [mbind M_bind get_state mret M_ret].
  destruct (user_data st !! "active_task") as [[handle|h]|] eqn:Hud.
  - rewrite bool_decide_eq_true_2 by eauto.
    cbv [task_cancel modify]. rewrite Hud. reflexivity.
  - rewrite bool_decide_eq_true_2 by eauto.
    rewrite Hud. reflexivity.
  - rewrite bool_decide_eq_false_2 by (intros [? ?]; discriminate).
    reflexivity.
Qed.

(** The states a tick can lead to. *)
Lemma tick_cases (st : state) :
  let st1 := set_clock (S (clock st)) st in
  tick st = st1 ∨
  tick st = set_cancel_press None st1 ∨
  tick st = log_call (ReplyText "Action cancelled." main_menu_markup) None
              (set_cancel_press None st1) ∨
  ∃ handle, user_data st !! "active_task" = Some (VTask handle) ∧
    tick st = log_call (ReplyText "Action cancelled." main_menu_markup) None
                (cancel_at handle (set_cancel_press None st1)).
Proof.
  intros st1. unfold tick. fold st1.
  destruct (cancel_press st1) as [c|]; [|by left].
  destruct (c <=? clock st1); [|by left].
  rewrite cancel_command_background.
  change (user_data (set_cancel_press None st1)) with (user_data st).
  destruct (user_data st !! "active_task") as [[handle|h]|] eqn:Hud.
  - right; right; right. by exists handle.
  - right; left. reflexivity.
  - right; right; left. reflexivity.
Qed.

Lemma cancel_at_fields (handle : nat) (st : state) :
  clock (cancel_at handle st) = clock st ∧
  user_data (cancel_at handle st) = user_data st ∧
  outbox (cancel_at handle st) = outbox st ∧
  script (cancel_at handle st) = script st.
Proof.
  unfold cancel_at.
  destruct (tasks st !! handle) as [t|]; [|done].
  destruct (task_is_done (clock st) t); done.
Qed.

Lemma tick_clock (st : state) : clock (tick st) = S (clock st).
Proof.
  destruct (tick_cases st) as [-> | [-> | [-> | (handle & _ & ->)]]]; try done.
  cbn. by destruct (cancel_at_fields handle (set_cancel_press None (set_clock (S (clock st)) st))) as (-> & _).
Qed.

Lemma tick_user_data (st : state) : user_data (tick st) = user_data st.
Proof.
  destruct (tick_cases st) as [-> | [-> | [-> | (handle & _ & ->)]]]; try done.
  cbn. by destruct (cancel_at_fields handle (set_cancel_press None (set_clock (S (clock st)) st))) as (_ & -> & _).
Qed.

Lemma tick_script (st : state) : script (tick st) = script st.
Proof.
  destruct (tick_cases st) as [-> | [-> | [-> | (handle & _ & ->)]]]; try done.
  cbn. by destruct (cancel_at_fields handle (set_cancel_press None (set_clock (S (clock st)) st))) as (_ & _ & _ & ->).
Qed.


Lemma status_ops_app (msg : nat) (ob1 ob2 : list (bot_request * option exn)) :
  status_ops msg (ob1 ++ ob2) = status_ops msg ob1 ++ status_ops msg ob2.
Proof. unfold status_ops. by rewrite map_app, filter_app. Qed.

Lemma outbox_log_call (req : bot_request) (failure : option exn) (st : state) :
  outbox (log_call req failure st) = outbox st ++ [(req, failure)].
Proof. reflexivity. Qed.

Lemma tick_status_ops (msg : nat) (st : state) :
  status_ops msg (outbox (tick st)) = status_ops msg (outbox st).
Proof.
  destruct (tick_cases st) as [-> | [-> | [-> | (handle & _ & ->)]]]; try done.
  - rewrite outbox_log_call, status_ops_app. apply app_nil_r.
  - rewrite outbox_log_call, status_ops_app.
    destruct (cancel_at_fields handle
      (set_cancel_press None (set_clock (S (clock st)) st))) as (_ & _ & -> & _).
    apply app_nil_r.
Qed.

(** *** The relation [later] *)

Lemma later_refl (handle : nat) (st : state) : later handle st st.
Proof. repeat split; [lia | eauto]. Qed.

Lemma task_is_done_mono (t : task) (n m : nat) :
  n ≤ m → task_is_done n t = true → task_is_done m t = true.
Proof.
  unfold task_is_done. intros Hnm H.
  apply orb_true_iff in H as [H | H]; apply orb_true_iff; [by left|right].
  apply Nat.leb_le in H. apply Nat.leb_le. lia.
Qed.

Lemma later_trans (handle : nat) (st1 st2 st3 : state) :
  later handle st1 st2 → later handle st2 st3 → later handle st1 st3.
Proof.
  intros (Hc1 & Hu1 & Hl1 & Ht1) (Hc2 & Hu2 & Hl2 & Ht2).
  repeat split; [lia | congruence | congruence |].
  intros t Ht. destruct (Ht1 t Ht) as (t' & Ht' & Hf & Ho & Hd).
  destruct (Ht2 t' Ht') as (t'' & Ht'' & Hf' & Ho' & Hd').
  exists t''. repeat split; [done | congruence | congruence |].
  intros Hdone. specialize (Hd Hdone). subst t'.
  apply Hd'. by apply (task_is_done_mono t (clock st1)).
Qed.

Lemma later_cancel_at (handle h' : nat) (st : state) :
  later handle st (cancel_at h' st).
Proof.
  unfold cancel_at.
  destruct (tasks st !! h') as [t'|] eqn:Ht'; [|apply later_refl].
  destruct (task_is_done (clock st) t') eqn:Hdone; [apply later_refl|].
  repeat split; cbn; [lia | by rewrite length_insert |].
  intros t Ht. destruct (decide (h' = handle)) as [->|Hne].
  - rewrite list_lookup_insert_eq by (by eapply lookup_lt_Some).
    rewrite Ht in Ht'. injection Ht' as ->.
    eexists. split; [done|]. cbn. split; [done|]. split; [done|].
    intros Hd. congruence.
  - rewrite list_lookup_insert_ne by done. eauto.
Qed.

(** Fields that [later] does not look at can change freely. *)
Lemma later_same_core (handle : nat) (st st' : state) :
  clock st' = clock st → user_data st' = user_data st → tasks st' = tasks st →
  later handle st st'.
Proof.
  intros Hc Hu Ht. repeat split; [lia | done | by rewrite Ht |].
  intros t H. rewrite Ht. eauto.
Qed.

Lemma later_tick (handle : nat) (st : state) : later handle st (tick st).
Proof.
  assert (later handle st (set_clock (S (clock st)) st)) as H1.
  { repeat split; cbn; [lia | eauto]. }
  destruct (tick_cases st) as [-> | [-> | [-> | (h' & _ & ->)]]]; try done.
  eapply later_trans; [exact H1|].
  eapply later_trans; [|apply later_same_core; reflexivity].
  eapply later_trans; [|apply later_cancel_at].
  by apply later_same_core.
Qed.

Lemma later_sleep (handle d : nat) (st : state) : later handle st (sleep d st).
Proof.
  unfold sleep. induction d as [|d IH]; cbn; [apply later_refl|].
  eapply later_trans; [exact IH | apply later_tick].
Qed.

Lemma later_wait_ticks (handle n : nat) (is_done : state → bool) (st : state) :
  later handle st (wait_ticks n is_done st).
Proof.
  revert st. induction n as [|n IH]; intros st; cbn.
  - destruct (is_done st); apply later_refl.
  - destruct (is_done st); [apply later_refl|].
    eapply later_trans; [apply later_tick | apply IH].
Qed.

Lemma later_after_call (handle : nat) (req : bot_request) (st : state) :
  later handle st (after_call req st).
Proof.
  unfold after_call.
  eapply later_trans; [|apply later_sleep]. by apply later_same_core.
Qed.

(** A task that is done stays done, with the same result. *)
Lemma later_done (handle : nat) (st st' : state) :
  later handle st st' → done_at handle st = true →
  done_at handle st' = true ∧ result_at handle st' = result_at handle st.
Proof.
  intros (Hc & _ & _ & Ht). unfold done_at, result_at.
  destruct (tasks st !! handle) as [t|] eqn:Hlook; [|discriminate].
  intros Hdone. destruct (Ht t eq_refl) as (t' & -> & _ & _ & Heq).
  rewrite (Heq Hdone). split; [by apply (task_is_done_mono t (clock st))|].
  destruct (cancelled t) eqn:Hcan; [done|].
  unfold task_is_done in Hdone. rewrite Hcan in Hdone. cbn in Hdone.
  rewrite Hdone. apply Nat.leb_le in Hdone.
  destruct (Nat.leb_spec (finish_at t) (clock st')); [done | lia].
Qed.

(** *** The relation [issued] *)

Lemma issued_refl (msg : nat) (st : state) : issued msg [] st st.
Proof. unfold issued. by rewrite app_nil_r. Qed.

Lemma issued_trans (msg : nat) (ops1 ops2 : list bot_request) (st1 st2 st3 : state) :
  issued msg ops1 st1 st2 → issued msg ops2 st2 st3 →
  issued msg (ops1 ++ ops2) st1 st3.
Proof. unfold issued. intros H1 H2. by rewrite H2, H1, app_assoc. Qed.

Lemma issued_sleep (msg d : nat) (st : state) : issued msg [] st (sleep d st).
Proof.
  unfold issued, sleep. rewrite app_nil_r.
  induction d as [|d IH]; cbn; [done|]. by rewrite tick_status_ops.
Qed.

Lemma issued_wait_ticks (msg n : nat) (is_done : state → bool) (st : state) :
  issued msg [] st (wait_ticks n is_done st).
Proof.
  unfold issued. rewrite app_nil_r.
  revert st. induction n as [|n IH]; intros st; cbn.
  - by destruct (is_done st).
  - destruct (is_done st); [done|]. by rewrite IH, tick_status_ops.
Qed.

Lemma issued_after_call (msg : nat) (req : bot_request) (st : state) :
  issued msg (if targets msg req then [req] else []) st (after_call req st).
Proof.
  unfold after_call.
  pose proof (issued_sleep msg (next_call st).1
    (set_script (tail (script st)) (log_call req (next_call st).2 st))) as H.
  unfold issued in *. rewrite H, app_nil_r.
  change (outbox (set_script ?s ?x)) with (outbox x).
  rewrite outbox_log_call, status_ops_app. f_equal.
  unfold status_ops. change (map fst [(req, (next_call st).2)]) with [req].
  rewrite filter_cons, filter_nil.
  destruct (targets msg req); by case_decide.
Qed.


(** *** One iteration of the progress loop *)

Lemma M_bind_eq {A B} (m : M A) (f : A → M B) (st : state) :
  (m ≫= f) st =
  match m st with
  | Some (Ok a, st') => f a st'
  | Some (Raise e, st') => Some (Raise e, st')
  | None => None
  end.
Proof. reflexivity. Qed.

Lemma try_catch_eq {A} (m : M A) (h : exn → M A) (st : state) :
  try_catch m h st =
  match m st with
  | Some (Raise e, st') => h e st'
  | r => r
  end.
Proof. reflexivity. Qed.

Lemma task_done_eq (handle : nat) (st : state) :
  task_done handle st = Some (Ok (done_at handle st), st).
Proof. reflexivity. Qed.

(** What the bounded wait of an iteration gives: the task's result if the
    task is done when the wait ends, [TimeoutError] otherwise. *)
Lemma wait_for_shield (handle timeout : nat) (st : state) :
  let st1 := wait_ticks timeout (done_at handle) st in
  wait_for (shield (task_awaitable handle)) timeout st =
  Some (if done_at handle st1 then result_at handle st1 else Raise TimeoutError, st1).
Proof.
  intros st1. unfold wait_for. cbn [shield task_awaitable aw_done aw_result aw_cancel].
  fold st1. by destruct (done_at handle st1).
Qed.

(** The spinner branch, lines 101-105. *)
Lemma spinner_branch (msg i : nat) (st : state) :
  (try_catch
     (edit_message_text bot_call (processing_text i) msg)
     (λ e', if is_BadRequest e' then mret tt else raise e');;
   mret (i + 1, @None conv_result)) st =
  match (next_call st).2 with
  | None => Some (Ok (i + 1, None), after_call (spinner_edit msg i) st)
  | Some e =>
      if is_BadRequest e
      then Some (Ok (i + 1, None), after_call (spinner_edit msg i) st)
      else Some (Raise e, after_call (spinner_edit msg i) st)
  end.
Proof.
  cbv [mbind M_bind try_catch edit_message_text bot_call mret M_ret raise].
  fold (spinner_edit msg i).
  destruct (next_call st).2 as [e|]; [|done].
  by destruct (is_BadRequest e).
Qed.

(** The cancellation branch, lines 107-110. *)
Lemma cancel_branch (msg i : nat) (st : state) :
  (edit_message_text bot_call cancelled_text msg;;
   menu_command bot_call;;
   mret (i, Some END)) st =
  let st2 := after_call (EditMessageText cancelled_text msg) st in
  match (next_call st).2 with
  | Some e => Some (Raise e, st2)
  | None =>
      match (next_call st2).2 with
      | Some e =>
          Some (Raise e,
                after_call (ReplyText "Here is the main menu:" main_menu_markup) st2)
      | None =>
          Some (Ok (i, Some END),
                after_call (ReplyText "Here is the main menu:" main_menu_markup) st2)
      end
  end.
Proof.
  cbv [mbind M_bind edit_message_text menu_command reply_text bot_call
       mret M_ret get_state].
  destruct (next_call st).2 as [e|]; [done|].
  by destruct (next_call (after_call (EditMessageText cancelled_text msg) st)).2.
Qed.

(** One unfolding of the loop on a task that is not done. *)
Lemma progress_loop_pending (fuel handle msg i : nat) (st : state) :
  done_at handle st = false →
  let st1 := wait_ticks POLL_TIMEOUT (done_at handle) st in
  progress_loop (S fuel) handle msg i st =
  match (if done_at handle st1 then result_at handle st1 else Raise TimeoutError) with
  | Ok _ => progress_loop fuel handle msg i st1
  | Raise TimeoutError =>
      match (next_call st1).2 with
      | None => progress_loop fuel handle msg (i + 1) (after_call (spinner_edit msg i) st1)
      | Some e =>
          if is_BadRequest e
          then progress_loop fuel handle msg (i + 1) (after_call (spinner_edit msg i) st1)
          else Some (Raise e, after_call (spinner_edit msg i) st1)
      end
  | Raise CancelledError =>
      let st2 := after_call (EditMessageText cancelled_text msg) st1 in
      match (next_call st1).2 with
      | Some e => Some (Raise e, st2)
      | None =>
          match (next_call st2).2 with
          | Some e =>
              Some (Raise e,
                    after_call (ReplyText "Here is the main menu:" main_menu_markup) st2)
          | None =>
              Some (Ok (Some END),
                    after_call (ReplyText "Here is the main menu:" main_menu_markup) st2)
          end
      end
  | Raise e => Some (Raise e, st1)
  end.
Proof.
  intros Hpending st1.
  cbn [progress_loop].
  rewrite M_bind_eq, task_done_eq, Hpending.
  rewrite M_bind_eq, try_catch_eq, M_bind_eq, wait_for_shield. fold st1.
  destruct (if done_at handle st1 then result_at handle st1 else Raise TimeoutError)
    as [v|e].
  - reflexivity.
  - destruct e; try reflexivity.
    + rewrite spinner_branch.
      destruct (next_call st1).2 as [e|]; [|reflexivity].
      by destruct (is_BadRequest e).
    + rewrite cancel_branch. cbv zeta.
      destruct (next_call st1).2 as [e|]; [reflexivity|].
      by destruct (next_call (after_call (EditMessageText cancelled_text msg) st1)).2.
Qed.

Lemma progress_loop_done (fuel handle msg i : nat) (st : state) :
  done_at handle st = true →
  progress_loop (S fuel) handle msg i st = Some (Ok None, st).
Proof.
  intros Hdone. cbn [progress_loop].
  by rewrite M_bind_eq, task_done_eq, Hdone.
Qed.


Lemma issued_edit (msg : nat) (text : string) (st : state) :
  issued msg [EditMessageText text msg] st (after_call (EditMessageText text msg) st).
Proof.
  pose proof (issued_after_call msg (EditMessageText text msg) st) as H.
  cbn [targets] in H. by rewrite Nat.eqb_refl in H.
Qed.

Lemma issued_delete (msg : nat) (st : state) :
  issued msg [DeleteMessage msg] st (after_call (DeleteMessage msg) st).
Proof.
  pose proof (issued_after_call msg (DeleteMessage msg) st) as H.
  cbn [targets] in H. by rewrite Nat.eqb_refl in H.
Qed.

Lemma issued_reply (msg : nat) (text : string) (mk : markup) (st : state) :
  issued msg [] st (after_call (ReplyText text mk) st).
Proof. apply (issued_after_call msg (ReplyText text mk) st). Qed.

Lemma issued_photo (msg : nat) (photo : list byte) (caption : string) (st : state) :
  issued msg [] st (after_call (SendPhoto photo caption) st).
Proof. apply (issued_after_call msg (SendPhoto photo caption) st). Qed.

(** The loop edits the status message with the frames [i], [i+1], ... in
    order and nothing else, except for the cancellation notice at the end. *)
Lemma progress_loop_spec (fuel : nat) :
  ∀ (handle msg i : nat) (st st' : state) (r : result (option conv_result)),
    progress_loop fuel handle msg i st = Some (r, st') →
    later handle st st' ∧
    ∃ (n : nat) (fin : list bot_request),
      issued msg (map (spinner_edit msg) (seq i n) ++ fin) st st' ∧
      loop_end handle msg r fin st'.
Proof.
  induction fuel as [|fuel IH]; intros handle msg i st st' r Hrun; [discriminate|].
  destruct (done_at handle st) eqn:Hdone.
  { rewrite progress_loop_done in Hrun by done. injection Hrun as <- <-.
    split; [apply later_refl|]. exists 0, []. split; [apply issued_refl | done]. }
  rewrite progress_loop_pending in Hrun by done. cbv zeta in Hrun.
  set (st1 := wait_ticks POLL_TIMEOUT (done_at handle) st) in *.
  assert (later handle st st1) as L1 by apply later_wait_ticks.
  assert (issued msg [] st st1) as I1 by apply issued_wait_ticks.
  (* what the recursive call gives after the spinner edit *)
  assert (∀ r st', progress_loop fuel handle msg (i + 1)
                     (after_call (spinner_edit msg i) st1) = Some (r, st') →
          later handle st st' ∧
          ∃ n fin, issued msg (map (spinner_edit msg) (seq i n) ++ fin) st st' ∧
                   loop_end handle msg r fin st') as Hspin.
  { intros r0 st0 Hrec. apply IH in Hrec as (L2 & n & fin & I2 & Hend).
    split.
    - eapply later_trans; [exact L1|].
      eapply later_trans; [apply later_after_call | exact L2].
    - exists (S n), fin. split; [|done].
      pose proof (issued_trans _ _ _ _ _ _ I1
                    (issued_trans _ _ _ _ _ _ (issued_edit msg _ st1) I2)) as I.
      rewrite Nat.add_1_r in I. exact I. }
  destruct (if done_at handle st1 then result_at handle st1 else Raise TimeoutError)
    as [v|e] eqn:Hwait.
  - (* the task finished during the wait *)
    apply IH in Hrun as (L2 & n & fin & I2 & Hend).
    split; [by eapply later_trans|]. exists n, fin. split; [|done].
    apply (issued_trans _ _ _ _ _ _ I1 I2).
  - destruct e;
      try (injection Hrun as <- <-; split; [done|];
           exists 0, []; split; [exact I1 | by left]).
    + (* TimeoutError *)
      destruct (next_call st1).2 as [e|]; [|by apply Hspin].
      destruct (is_BadRequest e); [by apply Hspin|].
      injection Hrun as <- <-. split.
      * eapply later_trans; [exact L1 | apply later_after_call].
      * exists 1, []. split; [|by left].
        apply (issued_trans msg [] [spinner_edit msg i] st st1 _ I1).
        apply issued_edit.
    + (* CancelledError *)
      set (st2 := after_call (EditMessageText cancelled_text msg) st1) in *.
      set (st3 := after_call (ReplyText "Here is the main menu:" main_menu_markup) st2) in *.
      assert (later handle st1 st2) as L2 by apply later_after_call.
      assert (later handle st2 st3) as L3 by apply later_after_call.
      assert (issued msg [EditMessageText cancelled_text msg] st st2) as I2.
      { apply (issued_trans msg [] [EditMessageText cancelled_text msg] st st1 _ I1).
        apply issued_edit. }
      assert (issued msg [EditMessageText cancelled_text msg] st st3) as I3.
      { pose proof (issued_trans _ _ _ _ _ _ I2
                      (issued_reply msg "Here is the main menu:" main_menu_markup st2)) as I.
        by rewrite app_nil_r in I. }
      destruct (next_call st1).2 as [e|].
      { injection Hrun as <- <-. split; [by eapply later_trans|].
        exists 0, [EditMessageText cancelled_text msg]. split; [done | by right]. }
      destruct (next_call st2).2 as [e|]; injection Hrun as <- <-.
      { split; [eapply later_trans; [exact L1|by eapply later_trans]|].
        exists 0, [EditMessageText cancelled_text msg]. split; [done | by right]. }
      split; [eapply later_trans; [exact L1|by eapply later_trans]|].
      exists 0, [EditMessageText cancelled_text msg]. split; [done|].
      repeat split.
      destruct (done_at handle st1) eqn:Hd1; [|discriminate].
      destruct (later_done handle st1 st3) as (_ & ->); [by eapply later_trans | done |].
      exact Hwait.
Qed.


(** *** Bounded waits *)

Lemma wait_ticks_done (n : nat) (is_done : state → bool) (st : state) :
  is_done st = true → wait_ticks n is_done st = st.
Proof. intros H. destruct n; cbn; by rewrite H. Qed.

(** Two waits in a row are one wait. *)
Lemma wait_ticks_add (m n : nat) (is_done : state → bool) :
  ∀ st, wait_ticks n is_done (wait_ticks m is_done st) = wait_ticks (m + n) is_done st.
Proof.
  induction m as [|m IH]; intros st.
  - destruct (is_done st) eqn:Hd.
    + by rewrite !(wait_ticks_done _ is_done st Hd).
    + change (wait_ticks 0 is_done st) with (if is_done st then st else st).
      by rewrite Hd.
  - destruct (is_done st) eqn:Hd.
    + by rewrite !(wait_ticks_done _ is_done st Hd).
    + change (wait_ticks (S m) is_done st)
        with (if is_done st then st else wait_ticks m is_done (tick st)).
      change (wait_ticks (S m + n) is_done st)
        with (if is_done st then st else wait_ticks (m + n) is_done (tick st)).
      rewrite Hd. apply IH.
Qed.

Lemma wait_ticks_clock_le (n : nat) (is_done : state → bool) :
  ∀ st, clock (wait_ticks n is_done st) ≤ clock st + n.
Proof.
  induction n as [|n IH]; intros st; cbn.
  - destruct (is_done st); lia.
  - destruct (is_done st); [lia|].
    specialize (IH (tick st)). rewrite tick_clock in IH. lia.
Qed.

(** A wait that ends with the condition still false took all its ticks. *)
Lemma wait_ticks_clock_pending (n : nat) (is_done : state → bool) :
  ∀ st, is_done (wait_ticks n is_done st) = false →
        clock (wait_ticks n is_done st) = clock st + n.
Proof.
  induction n as [|n IH]; intros st.
  - destruct (is_done st) eqn:Hd.
    + rewrite wait_ticks_done by done. congruence.
    + cbn. rewrite Hd. lia.
  - destruct (is_done st) eqn:Hd.
    + rewrite wait_ticks_done by done. congruence.
    + cbn [wait_ticks]. rewrite Hd.
      intros H. rewrite (IH _ H), tick_clock. lia.
Qed.

(** Waiting up to the finish time of a task sees it done. *)
Lemma wait_ticks_finish (handle : nat) (st : state) (t : task) :
  tasks st !! handle = Some t →
  done_at handle (wait_ticks (finish_at t - clock st) (done_at handle) st) = true.
Proof.
  intros Ht.
  set (st' := wait_ticks (finish_at t - clock st) (done_at handle) st).
  destruct (done_at handle st') eqn:Hd; [done|].
  pose proof (wait_ticks_clock_pending _ _ _ Hd) as Hclock. fold st' in Hclock.
  destruct (later_wait_ticks handle (finish_at t - clock st) (done_at handle) st)
    as (_ & _ & _ & Hlater).
  destruct (Hlater t Ht) as (t' & Ht' & Hf & _). fold st' in Ht'.
  unfold done_at in Hd. rewrite Ht' in Hd. unfold task_is_done in Hd.
  apply orb_false_iff in Hd as [_ Hd]. apply Nat.leb_gt in Hd. lia.
Qed.

(** Waiting longer than up to the finish time changes nothing. *)
Lemma wait_ticks_saturate (handle k : nat) (st : state) (t : task) :
  tasks st !! handle = Some t →
  finish_at t - clock st ≤ k →
  wait_ticks k (done_at handle) st =
  wait_ticks (finish_at t - clock st) (done_at handle) st.
Proof.
  intros Ht Hk.
  replace k with ((finish_at t - clock st) + (k - (finish_at t - clock st))) by lia.
  rewrite <- wait_ticks_add. apply wait_ticks_done. by apply wait_ticks_finish.
Qed.

(** *** Polls *)

Lemma poll_eq (handle timeout : nat) (st : state) :
  poll handle timeout st = Some (Ok tt, wait_ticks timeout (done_at handle) st).
Proof.
  unfold poll. rewrite try_catch_eq, M_bind_eq, wait_for_shield.
  by destruct (if done_at handle _ then result_at handle _ else Raise TimeoutError).
Qed.

(** A bounded wait before [await task] does not change what it gives. *)
Lemma await_task_after_wait (handle n : nat) (st : state) (t : task) :
  tasks st !! handle = Some t →
  await_task handle (wait_ticks n (done_at handle) st) = await_task handle st.
Proof.
  intros Ht.
  destruct (later_wait_ticks handle n (done_at handle) st) as (_ & _ & _ & Hlater).
  destruct (Hlater t Ht) as (t' & Ht' & Hf & _).
  unfold await_task. rewrite Ht, Ht', Hf.
  rewrite wait_ticks_add.
  rewrite (wait_ticks_saturate handle _ st t); [done | done |].
  pose proof (wait_ticks_clock_le n (done_at handle) st). lia.
Qed.

Lemma polls_then_await (handle : nat) (timeouts : list nat) :
  ∀ (st : state) (t : task),
    tasks st !! handle = Some t →
    (polls handle timeouts;; await_task handle) st = await_task handle st.
Proof.
  induction timeouts as [|timeout timeouts IH]; intros st t Ht; [done|].
  cbn [polls]. rewrite !M_bind_eq, poll_eq.
  destruct (later_wait_ticks handle timeout (done_at handle) st) as (_ & _ & _ & Hlater).
  destruct (Hlater t Ht) as (t' & Ht' & _).
  specialize (IH _ t' Ht'). rewrite M_bind_eq in IH.
  destruct (polls handle timeouts (wait_ticks timeout (done_at handle) st))
    as [[[[]|e] st1]|]; rewrite IH; by eapply await_task_after_wait.
Qed.

(** ** C1 *)

(** C1.  Starting a task, polling it any number of times with any timeouts
    (each poll is [wait_for(shield(task), timeout)], whatever it gives) and
    then awaiting it gives the same result, in the same final state, as
    starting it and awaiting it at once: a poll that times out neither
    cancels nor alters the task. *)
Theorem polls_do_not_alter_task (prompt : string) (timeouts : list nat) (st : state) :
  (generation_task ← create_task prompt;
   polls generation_task timeouts;;
   await_task generation_task) st
  = (generation_task ← create_task prompt;
     await_task generation_task) st.
Proof.
  rewrite !M_bind_eq. unfold create_task.
  eapply polls_then_await. cbn [tasks set_tasks].
  by rewrite lookup_app_r, Nat.sub_diag.
Qed.

(** Without the shield a poll that times out does cancel the task. *)
Example unshielded_poll_cancels :
  let st := {| clock := 0; user_data := ∅; tasks := []; outbox := []; script := [];
               cancel_press := None;
               image_provider :=
                 {| latency := 10;
                    reply := Response 200
                      (Some (JObject [("artifacts",
                         JArray [JObject [("base64", JString "TWFu")]])])) |} |} in
  fst <$> (generation_task ← create_task "fox";
           poll_unshielded generation_task 3;;
           await_task generation_task) st = Some (Raise CancelledError) ∧
  fst <$> (generation_task ← create_task "fox";
           poll generation_task 3;;
           await_task generation_task) st = Some (Ok (Some ["M"; "a"; "n"]%byte)).
Proof. split; vm_compute; reflexivity. Qed.


(** *** After the loop *)

Lemma reply_text_eq (text : string) (mk : markup) (st : state) :
  reply_text bot_call text mk st =
  Some (match (next_call st).2 with
        | None => Ok (length (outbox st))
        | Some e => Raise e
        end,
        after_call (ReplyText text mk) st).
Proof.
  cbv [reply_text mbind M_bind get_state bot_call mret M_ret].
  by destruct (next_call st).2.
Qed.

Lemma menu_command_eq (st : state) :
  menu_command bot_call st =
  Some (match (next_call st).2 with
        | None => Ok tt
        | Some e => Raise e
        end,
        after_call (ReplyText "Here is the main menu:" main_menu_markup) st).
Proof.
  unfold menu_command. rewrite M_bind_eq, reply_text_eq.
  by destruct (next_call st).2.
Qed.

Lemma delitem_user_data_eq (k : string) (st : state) :
  delitem_user_data k st =
  match user_data st !! k with
  | Some _ => Some (Ok tt, set_user_data (delete k (user_data st)) st)
  | None => Some (Raise KeyError, st)
  end.
Proof.
  cbv [delitem_user_data mbind M_bind get_state modify raise].
  by destruct (user_data st !! k).
Qed.

Ltac later_chain :=
  repeat first
    [ apply later_refl
    | apply later_after_call
    | eapply later_trans; [|apply later_after_call] ].

Ltac issued_chain :=
  repeat first
    [ apply issued_refl
    | apply issued_reply
    | apply issued_photo
    | match goal with
      | |- issued ?msg [] ?st (after_call ?req ?st0) =>
          apply (issued_trans msg [] [] st st0 (after_call req st0))
      end ].

Ltac flow_done :=
  eexists _, _; split; [reflexivity | split; [later_chain | issued_chain]].

(** Sending the photo or the apology leaves the status message alone. *)
Lemma send_image_spec (handle msg : nat) (prompt : string)
    (image_bytes : option (list byte)) (st : state) :
  ∃ r st', send_image prompt image_bytes st = Some (r, st') ∧
           later handle st st' ∧ issued msg [] st st'.
Proof.
  unfold send_image. destruct image_bytes as [photo|].
  - rewrite try_catch_eq. unfold send_photo, bot_call.
    destruct (next_call st).2 as [e|].
    + destruct (is_TimedOut e).
      { rewrite M_bind_eq, reply_text_eq.
        destruct (next_call (after_call _ st)).2;
          flow_done. }
      destruct (is_Exception e).
      { rewrite M_bind_eq, reply_text_eq.
        destruct (next_call (after_call _ st)).2;
          flow_done. }
      flow_done.
    + flow_done.
  - rewrite M_bind_eq, reply_text_eq.
    destruct (next_call st).2;
      flow_done.
Qed.


(** What [relay_result] does to the session and the status message. *)
Lemma relay_result_spec (prompt : string) (handle msg : nat) (st : state) :
  ∃ r st', relay_result prompt handle msg st = Some (r, st') ∧
    match r with
    | Ok ret =>
        ret = END ∧
        (∃ v, result_at handle st = Ok v) ∧
        is_Some (user_data st !! "active_task") ∧
        later handle (set_user_data (delete "active_task" (user_data st)) st) st' ∧
        issued msg [DeleteMessage msg] st st'
    | Raise e => issued msg [] st st' ∨ issued msg [DeleteMessage msg] st st'
    end.
Proof.
  unfold relay_result. rewrite M_bind_eq.
  change (task_result handle st) with (Some (result_at handle st, st)).
  destruct (result_at handle st) as [v|e] eqn:Hres.
  2: { eexists _, _. split; [reflexivity|]. left. apply issued_refl. }
  rewrite M_bind_eq, delitem_user_data_eq.
  destruct (user_data st !! "active_task") as [a|] eqn:Hud.
  2: { eexists _, _. split; [reflexivity|]. left. apply issued_refl. }
  set (st1 := set_user_data (delete "active_task" (user_data st)) st).
  rewrite M_bind_eq. unfold delete_message, bot_call.
  set (st2 := after_call (DeleteMessage msg) st1).
  assert (issued msg [DeleteMessage msg] st st2) as I2 by apply (issued_delete msg st1).
  assert (later handle st1 st2) as L2 by apply later_after_call.
  destruct (next_call st1).2 as [e|].
  { eexists _, _. split; [reflexivity|]. by right. }
  rewrite M_bind_eq.
  destruct (send_image_spec handle msg prompt v st2) as (r3 & st3 & -> & L3 & I3).
  assert (issued msg [DeleteMessage msg] st st3) as I3'.
  { apply (issued_trans msg [DeleteMessage msg] [] st st2 st3 I2 I3). }
  destruct r3 as [[]|e].
  2: { eexists _, _. split; [reflexivity|]. by right. }
  rewrite M_bind_eq, menu_command_eq.
  set (st4 := after_call (ReplyText "Here is the main menu:" main_menu_markup) st3).
  assert (issued msg [DeleteMessage msg] st st4) as I4.
  { apply (issued_trans msg [DeleteMessage msg] [] st st3 st4 I3').
    apply issued_reply. }
  destruct (next_call st3).2 as [e|].
  { eexists _, _. split; [reflexivity|]. by right. }
  eexists _, _. split; [reflexivity|].
  split; [done|]. split; [by eexists|]. split; [by eexists|]. split; [|done].
  eapply later_trans; [exact L2|]. eapply later_trans; [exact L3|].
  apply later_after_call.
Qed.

(** *** Enough fuel *)

Lemma done_at_pending (handle : nat) (st : state) (t : task) :
  tasks st !! handle = Some t → done_at handle st = false →
  clock st < finish_at t.
Proof.
  unfold done_at, task_is_done. intros -> H.
  apply orb_false_iff in H as [_ H]. by apply Nat.leb_gt in H.
Qed.

(** The loop ends when its fuel covers the time the task still needs. *)
Lemma progress_loop_total (fuel : nat) :
  ∀ (handle msg i : nat) (st : state) (t : task),
    tasks st !! handle = Some t →
    1 ≤ fuel →
    done_at handle st = true ∨ finish_at t + 2 ≤ clock st + fuel →
    is_Some (progress_loop fuel handle msg i st).
Proof.
  induction fuel as [|fuel IH]; intros handle msg i st t Ht Hfuel Henough; [lia|].
  destruct (done_at handle st) eqn:Hdone.
  { rewrite progress_loop_done by done. eauto. }
  destruct Henough as [?|Henough]; [done|].
  pose proof (done_at_pending _ _ _ Ht Hdone) as Hpending.
  rewrite progress_loop_pending by done. cbv zeta.
  set (st1 := wait_ticks POLL_TIMEOUT (done_at handle) st).
  assert (later handle st st1) as L1 by apply later_wait_ticks.
  (* the recursive calls *)
  assert (∀ i' st2, later handle st1 st2 →
            (done_at handle st1 = true ∨ clock st + POLL_TIMEOUT ≤ clock st2) →
            is_Some (progress_loop fuel handle msg i' st2)) as Hrec.
  { intros i' st2 L2 Hcase.
    destruct (later_trans _ _ _ _ L1 L2) as (_ & _ & _ & Hl).
    destruct (Hl t Ht) as (t2 & Ht2 & Hf2 & _).
    apply (IH handle msg i' st2 t2 Ht2); [lia|].
    destruct Hcase as [Hd1|Hclock].
    - left. by destruct (later_done handle st1 st2 L2 Hd1).
    - right. unfold POLL_TIMEOUT in Hclock. lia. }
  destruct (done_at handle st1) eqn:Hd1.
  - destruct (result_at handle st1) as [v|e].
    + apply Hrec; [apply later_refl | by left].
    + destruct e; eauto.
      * destruct (next_call st1).2 as [e|];
          [destruct (is_BadRequest e); eauto|];
          (apply Hrec; [apply later_after_call | by left]).
      * destruct (next_call st1).2; eauto.
        destruct (next_call (after_call _ st1)).2; eauto.
  - assert (clock st1 = clock st + POLL_TIMEOUT) as Hclock
      by by apply wait_ticks_clock_pending.
    assert (∀ req, clock st + POLL_TIMEOUT ≤ clock (after_call req st1)) as Hlater.
    { intros req. destruct (later_after_call handle req st1) as (Hc & _). lia. }
    destruct (next_call st1).2 as [e|];
      [destruct (is_BadRequest e); eauto|];
      (apply Hrec; [apply later_after_call | right; apply Hlater]).
Qed.


(** *** The whole image flow *)

(** The state in which the loop starts: the first reply was sent, the task
    created and stored under [active_task]. *)
Lemma generate_image_from_prompt_eq (fuel : nat) (prompt : string) (st : state) :
  let st0 := after_call (ReplyText "`Initializing AI...`" NoMarkup) st in
  let handle := length (tasks st0) in
  let t := {| finish_at := clock st0 + _image_api_call_duration (image_provider st0);
              outcome := _image_api_call prompt (image_provider st0);
              cancelled := false |} in
  let st1 := set_user_data (<["active_task" := VTask handle]> (user_data st0))
               (set_tasks (tasks st0 ++ [t]) st0) in
  generate_image_from_prompt fuel prompt st =
  match (next_call st).2 with
  | Some e => Some (Raise e, st0)
  | None =>
      match progress_loop fuel handle (length (outbox st)) 0 st1 with
      | Some (Ok (Some ret), st2) => Some (Ok ret, st2)
      | Some (Ok None, st2) => relay_result prompt handle (length (outbox st)) st2
      | Some (Raise e, st2) => Some (Raise e, st2)
      | None => None
      end
  end.
Proof.
  intros st0 handle t st1. unfold generate_image_from_prompt.
  rewrite M_bind_eq, reply_text_eq. fold st0.
  destruct (next_call st).2 as [e|]; [done|].
  rewrite M_bind_eq. unfold create_task at 1. fold handle t.
  rewrite M_bind_eq. unfold setitem_user_data at 1, modify at 1.
  rewrite M_bind_eq.
  match goal with
  | |- context [progress_loop fuel handle ?m 0 ?s] => change s with st1
  end.
  by destruct (progress_loop fuel handle (length (outbox st)) 0 st1)
    as [[[[ret|]|e] st2]|].
Qed.

(** What the flow did to its status message and to the session, by the way
    it ended. *)
Lemma generate_image_from_prompt_spec (fuel : nat) (prompt : string)
    (st st' : state) (r : result conv_result) :
  generate_image_from_prompt fuel prompt st = Some (r, st') →
  let msg := length (outbox st) in
  let handle := length (tasks st) in
  ∃ (n : nat) (fin : list bot_request),
    issued msg (map (spinner_edit msg) (seq 0 n) ++ fin) st st' ∧
    match r with
    | Ok ret =>
        ret = END ∧
        ((fin = [DeleteMessage msg] ∧
          (∃ v, result_at handle st' = Ok v) ∧
          user_data st' = delete "active_task" (user_data st)) ∨
         (fin = [EditMessageText cancelled_text msg] ∧
          result_at handle st' = Raise CancelledError ∧
          user_data st' = <["active_task" := VTask handle]> (user_data st)))
    | Raise e =>
        fin = [] ∨ fin = [EditMessageText cancelled_text msg] ∨
        fin = [DeleteMessage msg]
    end.
Proof.
  intros Hrun msg handle.
  rewrite generate_image_from_prompt_eq in Hrun. cbv zeta in Hrun.
  set (st0 := after_call (ReplyText "`Initializing AI...`" NoMarkup) st) in *.
  assert (later handle st st0) as L0 by apply later_after_call.
  assert (issued msg [] st st0) as I0 by apply issued_reply.
  destruct L0 as (_ & Hud0 & Hlen0 & _).
  destruct (next_call st).2 as [e|].
  { injection Hrun as <- <-. exists 0, []. split; [exact I0 | by left]. }
  rewrite Hlen0 in Hrun. fold handle msg in Hrun.
  match type of Hrun with
  | context [progress_loop fuel handle msg 0 ?s] => set (st1 := s) in *
  end.
  destruct (progress_loop fuel handle msg 0 st1) as [[rl st2]|] eqn:Hloop;
    [|done].
  apply progress_loop_spec in Hloop as (L2 & n & fin & I2 & Hend).
  assert (issued msg (map (spinner_edit msg) (seq 0 n) ++ fin) st st2) as I2'.
  { apply (issued_trans msg [] _ st st0 st2 I0). exact I2. }
  destruct L2 as (Hc2 & Hud2 & Hlen2 & Ht2).
  destruct rl as [[ret|]|e]; cbn [loop_end] in Hend.
  - (* the loop returned: cancellation *)
    injection Hrun as <- <-. destruct Hend as (-> & -> & Hres).
    exists n, [EditMessageText cancelled_text msg]. split; [done|].
    split; [done|]. right. split; [done|]. split; [done|].
    rewrite Hud2. cbn. by rewrite Hud0.
  - (* the loop was left by its condition *)
    destruct Hend as (-> & Hdone).
    destruct (relay_result_spec prompt handle msg st2) as (r' & st3 & Hrelay & Hspec).
    rewrite Hrelay in Hrun. injection Hrun as <- <-.
    destruct r' as [ret|e].
    + destruct Hspec as (-> & (v & Hres) & _ & L3 & I3).
      exists n, [DeleteMessage msg]. split.
      * rewrite app_nil_r in I2'. apply (issued_trans _ _ _ _ _ _ I2' I3).
      * split; [done|]. left. split; [done|].
        destruct (later_done handle _ st3 L3 Hdone) as (_ & Hres3).
        split; [exists v; by rewrite Hres3|].
        destruct L3 as (_ & -> & _). cbn. rewrite Hud2. cbn.
        rewrite Hud0. apply delete_insert_eq.
    + destruct Hspec as [I3|I3].
      * exists n, []. split; [|by left].
        pose proof (issued_trans _ _ _ _ _ _ I2' I3) as I.
        by rewrite !app_nil_r in *.
      * exists n, [DeleteMessage msg]. split; [|by right; right].
        rewrite app_nil_r in I2'. apply (issued_trans _ _ _ _ _ _ I2' I3).
  - injection Hrun as <- <-. exists n, fin. split; [done|].
    destruct Hend as [->| ->]; [by left | by right; left].
Qed.

(** With fuel for the longest call the provider timeout allows, the flow
    always returns or raises. *)
Lemma generate_image_from_prompt_total (fuel : nat) (prompt : string) (st : state) :
  HTTP_TIMEOUT + 2 ≤ fuel →
  is_Some (generate_image_from_prompt fuel prompt st).
Proof.
  intros Hfuel. rewrite generate_image_from_prompt_eq. cbv zeta.
  set (st0 := after_call (ReplyText "`Initializing AI...`" NoMarkup) st).
  destruct (next_call st).2 as [e|]; [eauto|].
  match goal with
  | |- context [progress_loop fuel ?h ?m 0 ?s] =>
      destruct (progress_loop_total fuel h m 0 s
        {| finish_at := clock st0 + _image_api_call_duration (image_provider st0);
           outcome := _image_api_call prompt (image_provider st0);
           cancelled := false |}) as [[rl st2] ->]
  end.
  - cbn. by rewrite lookup_app_r, Nat.sub_diag.
  - lia.
  - right. cbn. unfold _image_api_call_duration, post_duration.
    pose proof (Nat.le_min_r (latency (image_provider st0)) HTTP_TIMEOUT). lia.
  - destruct rl as [[ret|]|e]; eauto.
    destruct (relay_result_spec prompt (length (tasks st0)) (length (outbox st)) st2)
      as (r' & st3 & -> & _). eauto.
Qed.


(** ** C6 *)









(** Over a whole run of the image flow (the fuel covers the longest wait
    the provider of the model allows, so the run returns or raises), the
    edits and deletions requested on the status message are, in order, the
    spinner edits with the counters 0, 1, ..., n-1 and then at most one
    closing operation, the cancellation notice or the deletion. *)
Lemma image_flow_spinner_edits_in_order (fuel : nat) (prompt : string) (st : state) :
  HTTP_TIMEOUT + 2 ≤ fuel →
  let msg := length (outbox st) in
  ∃ (r : result conv_result) (st' : state) (n : nat) (fin : list bot_request),
    generate_image_from_prompt fuel prompt st = Some (r, st') ∧
    issued msg (map (spinner_edit msg) (seq 0 n) ++ fin) st st' ∧
    (fin = [] ∨ fin = [EditMessageText cancelled_text msg] ∨
     fin = [DeleteMessage msg]).
Proof.
  intros Hfuel msg.
  destruct (generate_image_from_prompt_total fuel prompt st Hfuel) as [[r st'] Hrun].
  destruct (generate_image_from_prompt_spec _ _ _ _ _ Hrun) as (n & fin & I & Hr).
  exists r, st', n, fin. split; [done|]. split; [done|].
  destruct r as [ret|e].
  - destruct Hr as (_ & [(-> & _) | (-> & _)]); [by right; right | by right; left].
  - done.
Qed.

(** The frames of a run of 10 s: 33 polls time out, the counter passes the
    end of the list three times. *)
Example spinner_edits_of_a_slow_run :
  match generate_image_from_prompt 40 "a red fox" (session slow_provider [] None) with
  | Some (r, st') =>
      r = Ok END ∧
      status_ops 0 (outbox st') = map (spinner_edit 0) (seq 0 33) ++ [DeleteMessage 0] ∧
      spinner_edit 0 10 = spinner_edit 0 0 ∧ spinner_edit 0 32 = spinner_edit 0 2
  | None => False
  end.
Proof. vm_compute. repeat split. Qed.


(** ** C8 *)

(** C8 as the code has it.  When the image flow returns, the status message
    was edited with the spinner frames and then closed in one of two ways:
    deleted, when the task returned a result, image bytes or the soft
    failure [None] alike; or edited to the cancellation notice, when a poll
    observed the task cancelled. *)
Theorem status_message_closed_by_outcome (fuel : nat) (prompt : string)
    (st st' : state) :
  generate_image_from_prompt fuel prompt st = Some (Ok END, st') →
  let msg := length (outbox st) in
  let handle := length (tasks st) in
  ∃ n : nat,
    (issued msg (map (spinner_edit msg) (seq 0 n) ++ [DeleteMessage msg]) st st' ∧
     ∃ image_bytes, result_at handle st' = Ok image_bytes) ∨
    (issued msg (map (spinner_edit msg) (seq 0 n) ++
                 [EditMessageText cancelled_text msg]) st st' ∧
     result_at handle st' = Raise CancelledError).
Proof.
  intros Hrun msg handle.
  destruct (generate_image_from_prompt_spec _ _ _ _ _ Hrun)
    as (n & fin & I & _ & [(-> & Hres & _) | (-> & Hres & _)]);
    exists n; [left | right]; done.
Qed.

Lemma status_message_closed_by_outcome_witness :
  ∃ st', generate_image_from_prompt 40 "sunset" (session slow_provider [] (Some 4))
         = Some (Ok END, st') ∧
    ∃ n : nat,
      (issued 0 (map (spinner_edit 0) (seq 0 n) ++ [DeleteMessage 0])
         (session slow_provider [] (Some 4)) st' ∧
       ∃ image_bytes, result_at 0 st' = Ok image_bytes) ∨
      (issued 0 (map (spinner_edit 0) (seq 0 n) ++
                 [EditMessageText cancelled_text 0])
         (session slow_provider [] (Some 4)) st' ∧
       result_at 0 st' = Raise CancelledError).
Proof.
  eexists. split; [vm_compute; reflexivity|].
  apply (status_message_closed_by_outcome 40 "sunset" (session slow_provider [] (Some 4))).
  vm_compute. reflexivity.
Defined.

(** C8 as stated fails for a failed task: the provider's reply has no
    artifact, [_image_api_call] returns [None], and the flow deletes the
    status message and sends the apology as a new message; the status
    message is never edited to a closing text. *)
Lemma failed_task_status_message_deleted :
  match generate_image_from_prompt 40 "sunset" (session empty_provider [] None) with
  | Some (r, st') =>
      r = Ok END ∧
      result_at 0 st' = Ok None ∧
      map fst (outbox st') =
        [ReplyText "`Initializing AI...`" NoMarkup;
         spinner_edit 0 0;
         spinner_edit 0 1;
         DeleteMessage 0;
         ReplyText
           "Sorry, image generation failed. The prompt may have been rejected or the service may be unavailable."
           NoMarkup;
         ReplyText "Here is the main menu:" main_menu_markup]
  | None => False
  end.
Proof. vm_compute. repeat split. Qed.


(** ** C3 *)

(** C3, at an input where the code departs from it.  The provider answers
    after 0.7 s with status 500.  The task ends by raising (the
    [HTTPStatusError] that [_image_api_call] lets through), the poll of
    line 99 raises it in the handler, and nothing there catches it: the
    handler raises, and line 113, the one place where the handle is
    removed, is not reached.  The task is done and its handle is still
    stored under [active_task]. *)
Example failed_task_stays_in_active_slot :
  match generate_image_from_prompt 40 "sunset"
          (session {| latency := 7; reply := Response 500 None |} [] None) with
  | Some (r, st') =>
      r = Raise (HTTPStatusError 500) ∧
      done_at 0 st' = true ∧
      user_data st' !! "active_task" = Some (VTask 0)
  | None => False
  end.
Proof. vm_compute. repeat split. Qed.

(** The same without any failure of the provider: the first spinner edit
    times out at the Bot API, which is no [BadRequest], and the handler
    raises while the task is pending.  The task goes on and returns its
    image at 10 s; nobody is left to remove its handle. *)
Example task_outliving_the_flow_stays_in_active_slot :
  match generate_image_from_prompt 40 "sunset"
          (session slow_provider [(0, None); (1, Some TimedOut)] None) with
  | Some (r, st') =>
      r = Raise TimedOut ∧
      done_at 0 st' = false ∧
      result_at 0 (sleep 100 st') = Ok (Some ["M"; "a"; "n"]%byte) ∧
      user_data (sleep 100 st') !! "active_task" = Some (VTask 0)
  | None => False
  end.
Proof. vm_compute. repeat split. Qed.

(** Under [main], the handler that raised leaves the conversation where it
    was, waiting for a prompt, with the handle of the finished task in the
    session. *)
Example failed_flow_leaves_conversation_open :
  match run_polling echo_text_model 0 40 "Ann"
          [(0, TextMessage "Image ✨"); (10, TextMessage "sunset")]
          None (session {| latency := 7; reply := Response 500 None |} [] None) with
  | Some (conversation, results, st') =>
      conversation = Some GET_IMAGE_PROMPT ∧
      results = [Some (Ok (Some GET_IMAGE_PROMPT)); Some (Raise (HTTPStatusError 500))] ∧
      done_at 0 st' = true ∧
      user_data st' !! "active_task" = Some (VTask 0)
  | None => False
  end.
Proof. vm_compute. repeat split. Qed.

(** On the way out through the loop condition the handle is removed. *)
Lemma returned_task_leaves_active_slot (fuel : nat) (prompt : string)
    (st st' : state) (image_bytes : option (list byte)) :
  generate_image_from_prompt fuel prompt st = Some (Ok END, st') →
  result_at (length (tasks st)) st' = Ok image_bytes →
  user_data st' !! "active_task" = None.
Proof.
  intros Hrun Hres.
  destruct (generate_image_from_prompt_spec _ _ _ _ _ Hrun)
    as (n & fin & _ & _ & [(_ & _ & ->) | (_ & Hcan & _)]).
  - apply lookup_delete_eq.
  - congruence.
Qed.

(** ** C5 *)

(** C5, at the input where the code departs from it.  The user selects
    "Image", sends the prompt "sunset" at 1 s and selects "Cancel" at
    1.5 s; the provider needs 10 s, so the task is pending until 11 s.
    [main] handles the updates one after the other: the Cancel waits until
    [generate_image_from_prompt] has returned.  So the task is never
    cancelled: it returns the image, the status message is deleted without
    ever showing a cancellation notice, and the photo is sent.
    [cancel_command] does not run at all; the text of the button arrives
    when the conversation is over and is answered by the text chat. *)
Theorem cancel_during_generation_comes_too_late :
  match run_polling echo_text_model 0 40 "Ann"
          [(0, TextMessage "Image ✨"); (10, TextMessage "sunset");
           (15, TextMessage "Cancel ❌")]
          None (session slow_provider [] None) with
  | Some (conversation, results, st') =>
      conversation = None ∧
      results = [Some (Ok (Some GET_IMAGE_PROMPT)); Some (Ok (Some END)); Some (Ok None)] ∧
      tasks st' = [{| finish_at := 110; outcome := Ok (Some ["M"; "a"; "n"]%byte);
                      cancelled := false |}] ∧
      result_at 0 st' = Ok (Some ["M"; "a"; "n"]%byte) ∧
      map fst (outbox st') =
        [ReplyText "Please describe the image you want to create." cancel_markup;
         ReplyText "`Initializing AI...`" NoMarkup] ++
        map (spinner_edit 1) (seq 0 33) ++
        [DeleteMessage 1;
         SendPhoto ["M"; "a"; "n"]%byte (photo_caption "sunset");
         ReplyText "Here is the main menu:" main_menu_markup;
         SendChatAction;
         ReplyText "You said: Cancel ❌" NoMarkup]
  | None => False
  end.
Proof. vm_compute. repeat split. Qed.

(** The command [/cancel] sent during the generation fares no better: when
    its turn comes the conversation is over, and outside a conversation no
    handler accepts it. *)
Example cancel_command_during_generation_is_dropped :
  match run_polling echo_text_model 0 40 "Ann"
          [(0, TextMessage "Image ✨"); (10, TextMessage "sunset");
           (15, CommandMessage "cancel")]
          None (session slow_provider [] None) with
  | Some (conversation, results, st') =>
      conversation = None ∧
      results = [Some (Ok (Some GET_IMAGE_PROMPT)); Some (Ok (Some END)); None] ∧
      result_at 0 st' = Ok (Some ["M"; "a"; "n"]%byte) ∧
      map fst (outbox st') =
        [ReplyText "Please describe the image you want to create." cancel_markup;
         ReplyText "`Initializing AI...`" NoMarkup] ++
        map (spinner_edit 1) (seq 0 33) ++
        [DeleteMessage 1;
         SendPhoto ["M"; "a"; "n"]%byte (photo_caption "sunset");
         ReplyText "Here is the main menu:" main_menu_markup]
  | None => False
  end.
Proof. vm_compute. repeat split. Qed.

(** Where [cancel_command] does run: [/cancel] while the conversation waits
    for the prompt.  No task exists then. *)
Example cancel_command_before_the_prompt :
  match run_polling echo_text_model 0 40 "Ann"
          [(0, TextMessage "Image ✨"); (10, CommandMessage "cancel")]
          None (session slow_provider [] None) with
  | Some (conversation, results, st') =>
      conversation = None ∧
      results = [Some (Ok (Some GET_IMAGE_PROMPT)); Some (Ok (Some END))] ∧
      tasks st' = [] ∧
      map fst (outbox st') =
        [ReplyText "Please describe the image you want to create." cancel_markup;
         ReplyText "Action cancelled." main_menu_markup]
  | None => False
  end.
Proof. vm_compute. repeat split. Qed.

(** The text of the Cancel button, sent while the conversation waits for
    the prompt, is accepted by the handler of the state before the
    fallbacks are tried: it is the prompt. *)
Example cancel_button_before_the_prompt_is_a_prompt :
  match run_polling echo_text_model 0 40 "Ann"
          [(0, TextMessage "Image ✨"); (10, TextMessage "Cancel ❌")]
          None (session slow_provider [] None) with
  | Some (conversation, results, st') =>
      conversation = None ∧
      results = [Some (Ok (Some GET_IMAGE_PROMPT)); Some (Ok (Some END))] ∧
      map fst (outbox st') =
        [ReplyText "Please describe the image you want to create." cancel_markup;
         ReplyText "`Initializing AI...`" NoMarkup] ++
        map (spinner_edit 1) (seq 0 33) ++
        [DeleteMessage 1;
         SendPhoto ["M"; "a"; "n"]%byte (photo_caption "Cancel ❌");
         ReplyText "Here is the main menu:" main_menu_markup]
  | None => False
  end.
Proof. vm_compute. repeat split. Qed.

(** ** The cancellation branch

    Lines 106-110 are written for a task that is cancelled while the flow
    is suspended.  [main] never does that; the runs below have a
    [cancel_press], they show what the branch would do if it were
    reached. *)

(** A cancellation that falls into a poll: the notice is shown and the
    flow returns [END] from inside the loop, so that the handle of the
    cancelled task stays under [active_task]. *)
Example cancel_during_poll_shows_notice :
  match generate_image_from_prompt 40 "sunset" (session slow_provider [] (Some 4)) with
  | Some (r, st') =>
      r = Ok END ∧
      result_at 0 st' = Raise CancelledError ∧
      user_data st' !! "active_task" = Some (VTask 0) ∧
      map fst (outbox st') =
        [ReplyText "`Initializing AI...`" NoMarkup;
         spinner_edit 0 0;
         ReplyText "Action cancelled." main_menu_markup;
         EditMessageText cancelled_text 0;
         ReplyText "Here is the main menu:" main_menu_markup]
  | None => False
  end.
Proof. vm_compute. repeat split. Qed.

(** A cancellation that falls into a spinner edit is seen by the loop
    condition, not by a poll: [generation_task.result()] on line 112 raises
    [CancelledError] out of the handler, and no notice is shown. *)
Example cancel_during_edit_raises :
  match generate_image_from_prompt 40 "sunset"
          (session slow_provider [(0, None); (2, None)] (Some 4)) with
  | Some (r, st') =>
      r = Raise CancelledError ∧
      result_at 0 st' = Raise CancelledError ∧
      map fst (outbox st') =
        [ReplyText "`Initializing AI...`" NoMarkup;
         spinner_edit 0 0;
         ReplyText "Action cancelled." main_menu_markup]
  | None => False
  end.
Proof. vm_compute. repeat split. Qed.

(** ** C4 *)

(** C4 as the code has it.  When a poll times out and the spinner edit
    fails with [e], the failure is swallowed, and the loop goes on with the
    next counter, exactly when [e] is a [BadRequest], whatever its reason;
    any other failure is raised out of the loop. *)
Theorem edit_failure_swallowed_iff_BadRequest
    (fuel handle msg i : nat) (st : state) (e : exn) :
  done_at handle st = false →
  done_at handle (wait_ticks POLL_TIMEOUT (done_at handle) st) = false →
  (next_call (wait_ticks POLL_TIMEOUT (done_at handle) st)).2 = Some e →
  progress_loop (S fuel) handle msg i st =
  let st2 := after_call (spinner_edit msg i)
               (wait_ticks POLL_TIMEOUT (done_at handle) st) in
  if is_BadRequest e
  then progress_loop fuel handle msg (i + 1) st2
  else Some (Raise e, st2).
Proof.
  intros Hpending Htimeout Hfail.
  rewrite progress_loop_pending by done. cbv zeta.
  by rewrite Htimeout, Hfail.
Qed.

(** An exception the loop raises leaves the handler: nothing encloses the
    loop. *)
Lemma loop_failure_leaves_handler (fuel : nat) (prompt : string)
    (st st' : state) (e : exn) :
  (next_call st).2 = None →
  (let st0 := after_call (ReplyText "`Initializing AI...`" NoMarkup) st in
   progress_loop fuel (length (tasks st0)) (length (outbox st)) 0
     (set_user_data (<["active_task" := VTask (length (tasks st0))]> (user_data st0))
        (set_tasks
           (tasks st0 ++
            [{| finish_at := clock st0 + _image_api_call_duration (image_provider st0);
                outcome := _image_api_call prompt (image_provider st0);
                cancelled := false |}]) st0))
   = Some (Raise e, st')) →
  generate_image_from_prompt fuel prompt st = Some (Raise e, st').
Proof.
  intros Hreply Hloop. rewrite generate_image_from_prompt_eq. cbv zeta in *.
  by rewrite Hreply, Hloop.
Qed.

Lemma edit_failure_swallowed_iff_BadRequest_witness :
  progress_loop 5 0 0 0 stalled_session =
  Some (Raise TimedOut,
        after_call (spinner_edit 0 0)
          (wait_ticks POLL_TIMEOUT (done_at 0) stalled_session)).
Proof.
  apply (edit_failure_swallowed_iff_BadRequest 4 0 0 0 stalled_session TimedOut);
    vm_compute; reflexivity.
Defined.

(** C4 as stated fails: a [BadRequest] outside the two benign categories is
    swallowed as well.  The first spinner edit fails because the text cannot
    be parsed; the flow goes on to the second frame and delivers the
    photo. *)
Lemma other_bad_request_swallowed :
  is_benign_edit_failure unparsable = false ∧
  match generate_image_from_prompt 40 "sunset"
          (session {| latency := 7; reply := image_reply "TWFu" |}
                   [(0, None); (0, Some unparsable)] None) with
  | Some (r, st') =>
      r = Ok END ∧
      outbox st' =
        [(ReplyText "`Initializing AI...`" NoMarkup, None);
         (spinner_edit 0 0, Some unparsable);
         (spinner_edit 0 1, None);
         (DeleteMessage 0, None);
         (SendPhoto ["M"; "a"; "n"]%byte (photo_caption "sunset"), None);
         (ReplyText "Here is the main menu:" main_menu_markup, None)]
  | None => False
  end.
Proof. vm_compute. repeat split. Qed.


(** ** C9 *)



(** ** C10 *)

(** C10.  When the text generation raises, the history stored in the
    session after [handle_message] is the one it held before, and the empty
    one if none was stored.  (The chat action that precedes the call is
    taken to succeed, so that the call is made.) *)
Theorem failed_generation_keeps_history
    (generate_text : list turn → string → result (string * list turn))
    (generate_text_duration : nat) (text : string) (st : state) (e : exn) :
  (next_call st).2 = None →
  generate_text (stored_history st) text = Raise e →
  ∃ r st',
    handle_message generate_text generate_text_duration text st = Some (r, st') ∧
    user_data st' !! "history" = Some (default (VHistory []) (user_data st !! "history")).
Proof.
  intros Hchat Hfail.
  assert (∀ req s, user_data (after_call req s) = user_data s) as Hud.
  { intros req s. by destruct (later_after_call 0 req s) as (_ & -> & _). }
  assert (∀ d s, user_data (sleep d s) = user_data s) as Hsleep.
  { intros d s. by destruct (later_sleep 0 d s) as (_ & -> & _). }
  unfold handle_message, send_chat_action, contains.
  rewrite M_bind_eq. unfold bot_call at 1. rewrite Hchat.
  set (st0 := after_call SendChatAction st).
  assert (user_data st0 = user_data st) as Hud0 by apply Hud.
  rewrite !M_bind_eq. unfold get_state at 1. cbn [mret M_ret].
  (* the handler of the [try], from any state with the right history *)
  assert (∀ (s : state) (e' : exn) v,
            user_data s !! "history" = Some v →
            ∃ r st',
              (if is_Exception e'
               then reply_text bot_call
                      "Sorry, an error occurred with the text generation." NoMarkup;;
                    mret tt
               else raise e') s = Some (r, st') ∧
              user_data st' !! "history" = Some v) as Hhandler.
  { intros s e' v Hs. destruct (is_Exception e').
    - rewrite M_bind_eq, reply_text_eq.
      destruct (next_call s).2; eexists _, _; (split; [reflexivity|]);
        by rewrite Hud.
    - eexists _, _. split; [reflexivity | done]. }
  (* the body of the [try], from a state with history [v] *)
  assert (∀ (s : state) v,
            user_data s !! "history" = Some v →
            stored_history s = stored_history st →
            ∃ r st',
              try_catch
                (v ← getitem_user_data "history";
                 match v with
                 | VHistory history =>
                     modify (sleep generate_text_duration);;
                     '(response_text, chat_history) ← lift (generate_text history text);
                     setitem_user_data "history" (VHistory chat_history);;
                     reply_text bot_call response_text NoMarkup;;
                     mret tt
                 | VTask _ => raise TypeError
                 end)
                (λ e,
                   if is_Exception e
                   then reply_text bot_call
                          "Sorry, an error occurred with the text generation." NoMarkup;;
                        mret tt
                   else raise e) s = Some (r, st') ∧
              user_data st' !! "history" = Some v) as Hbody.
  { intros s v Hs Hstored. rewrite try_catch_eq, M_bind_eq.
    unfold getitem_user_data. rewrite M_bind_eq. unfold get_state at 1.
    rewrite Hs. cbn [mret M_ret].
    destruct v as [handle|history].
    - apply (Hhandler s TypeError). done.
    - rewrite M_bind_eq. unfold modify at 1. rewrite M_bind_eq.
      assert (history = stored_history st) as ->.
      { rewrite <- Hstored. unfold stored_history. by rewrite Hs. }
      unfold lift at 1. rewrite Hfail.
      apply Hhandler. by rewrite Hsleep. }
  destruct (user_data st !! "history") as [v|] eqn:Hh.
  - rewrite Hud0, Hh, bool_decide_eq_true_2 by eauto.
    rewrite M_bind_eq. cbn [mret M_ret default].
    apply Hbody; [by rewrite Hud0|].
    unfold stored_history. by rewrite Hud0.
  - rewrite Hud0, Hh, bool_decide_eq_false_2 by (intros [? ?]; discriminate).
    rewrite M_bind_eq. unfold setitem_user_data at 1, modify at 1. cbn [default].
    apply Hbody.
    + cbn. apply lookup_insert_eq.
    + unfold stored_history. cbn. rewrite lookup_insert_eq. by rewrite Hh.
Qed.

Lemma failed_generation_keeps_history_witness :
  ∃ r st',
    handle_message failing_text_model 20 "hello" (session slow_provider [] None)
    = Some (r, st') ∧
    user_data st' !! "history" = Some (VHistory []).
Proof.
  apply (failed_generation_keeps_history failing_text_model 20 "hello"
           (session slow_provider [] None) ValueError); reflexivity.
Defined.

(** What the user sees then. *)
Example failed_generation_apology :
  match handle_message failing_text_model 20 "hello" (session slow_provider [] None) with
  | Some (r, st') =>
      r = Ok tt ∧
      map fst (outbox st') =
        [SendChatAction;
         ReplyText "Sorry, an error occurred with the text generation." NoMarkup]
  | None => False
  end.
Proof. vm_compute. repeat split. Qed.

End BotFacts.

(** * Further properties *)

(** ** [_image_api_call] and the decoding of its payload *)

Module ProviderExtra.
Import Base64 Provider Base64Facts ProviderFacts.
Local Open Scope Z_scope.

Lemma image_api_call_network_error_witness :
  _image_api_call "sunset" {| latency := 3; reply := TransportFailure ConnectError |}
  = Ok None.
Proof. apply image_api_call_network_error. reflexivity. Defined.

Lemma image_api_call_missing_field_witness :
  _image_api_call "sunset"
    {| latency := 7;
       reply := Response 200 (Some (JObject [("artifacts", JArray [])])) |}
  = Ok None.
Proof.
  apply image_api_call_missing_field.
  - unfold HTTP_TIMEOUT. lia.
  - lia.
  - right. reflexivity.
Defined.

(** What the [try] of lines 144-150 gives before the [except] clause. *)
Lemma image_api_call_handler (prompt : string) (p : provider) :
  ∃ body : result (option (list byte)),
    _image_api_call prompt p =
    try_except body
      (λ e, if is_RequestError e || is_KeyError e || is_IndexError e
            then Ok None else Raise e).
Proof. eexists. reflexivity. Qed.

(** Whatever the provider does, the exception classes of the [except]
    clause never leave [_image_api_call]: an exception that does leave it is
    no [httpx.RequestError], no [KeyError] and no [IndexError]. *)
Theorem image_api_call_never_raises_caught (prompt : string) (p : provider) (e : exn) :
  _image_api_call prompt p = Raise e →
  is_RequestError e = false ∧ is_KeyError e = false ∧ is_IndexError e = false.
Proof.
  destruct (image_api_call_handler prompt p) as (body & ->).
  unfold try_except. destruct body as [v|e0]; [discriminate|].
  destruct (is_RequestError e0 || is_KeyError e0 || is_IndexError e0) eqn:Hcaught;
    [discriminate|].
  intros [= <-].
  apply orb_false_iff in Hcaught as [Hcaught ?].
  apply orb_false_iff in Hcaught as [? ?]. done.
Qed.

Lemma image_api_call_never_raises_caught_witness :
  is_RequestError (HTTPStatusError 500) = false ∧
  is_KeyError (HTTPStatusError 500) = false ∧
  is_IndexError (HTTPStatusError 500) = false.
Proof.
  apply (image_api_call_never_raises_caught "sunset"
           {| latency := 7; reply := Response 500 None |}).
  reflexivity.
Defined.

(** Image bytes come only from a reply with a success status and a payload
    whose field decodes to them. *)
Theorem image_api_call_bytes_only_from_success
    (prompt : string) (p : provider) (B : list byte) :
  _image_api_call prompt p = Ok (Some B) →
  ∃ (code : Z) (data : json) (s : string),
    reply p = Response code (Some data) ∧
    200 ≤ code ≤ 299 ∧
    payload_field data = Ok (JString s) ∧
    b64decode s = Ok B.
Proof.
  destruct p as [lat r]. unfold _image_api_call, client_post. cbn [latency reply].
  destruct (Nat.ltb_spec HTTP_TIMEOUT lat) as [Hlat|Hlat]; [discriminate|].
  destruct r as [code b|e].
  2: { rewrite bind_Raise. unfold try_except.
       destruct (is_RequestError e || is_KeyError e || is_IndexError e); discriminate. }
  rewrite bind_Ok. unfold raise_for_status. cbn [status_code].
  destruct (Z.leb_spec 200 code) as [H200|H200]; [|discriminate].
  destruct (Z.leb_spec code 299) as [H299|H299]; [|discriminate].
  cbn [andb]. rewrite bind_Ok. unfold response_json. cbn [body].
  destruct b as [data|]; [|discriminate].
  rewrite bind_Ok.
  destruct (payload_field data) as [v|e] eqn:Hfield.
  2: { rewrite bind_Raise. unfold try_except.
       destruct (is_RequestError e || is_KeyError e || is_IndexError e); discriminate. }
  rewrite bind_Ok.
  destruct (b64decode_value v) as [image|e] eqn:Hdecode.
  2: { rewrite bind_Raise. unfold try_except.
       destruct (is_RequestError e || is_KeyError e || is_IndexError e); discriminate. }
  rewrite bind_Ok. intros [= <-].
  destruct v as [| | |s| |]; try discriminate.
  exists code, data, s. done.
Qed.

Lemma image_api_call_bytes_only_from_success_witness :
  ∃ (code : Z) (data : json) (s : string),
    Response 200
      (Some (JObject [("artifacts", JArray [JObject [("base64", JString "TWFu")]])]))
    = Response code (Some data) ∧
    200 ≤ code ≤ 299 ∧
    payload_field data = Ok (JString s) ∧
    b64decode s = Ok ["M"; "a"; "n"]%byte.
Proof.
  apply (image_api_call_bytes_only_from_success "sunset"
           {| latency := 7;
              reply := Response 200
                (Some (JObject [("artifacts",
                   JArray [JObject [("base64", JString "TWFu")]])])) |}).
  reflexivity.
Defined.

(** The decoder loop fails with [binascii.Error] only. *)
Lemma a2b_loop_raises (s : string) :
  ∀ (st : a2b_state) (e : exn), a2b_loop s st = Raise e → e = BinasciiError.
Proof.
  induction s as [|ch s IH]; intros st e; cbn [a2b_loop].
  - destruct (quad_pos st =? 0); [discriminate | congruence].
  - destruct (Ascii.eqb ch BASE64_PAD).
    + destruct ((2 <=? quad_pos st) && (4 <=? quad_pos st + (pads st + 1)));
        [discriminate | apply IH].
    + destruct (table_a2b_base64 ch); apply IH.
Qed.

Lemma b64decode_value_raises (v : json) (e : exn) :
  b64decode_value v = Raise e →
  e = TypeError ∨ e = ValueError ∨ e = BinasciiError.
Proof.
  destruct v as [| | |s| |]; cbn; try (intros [= <-]; by left).
  unfold b64decode. destruct (is_ascii_text s).
  - intros H. right; right. by eapply a2b_loop_raises.
  - intros [= <-]. right; by left.
Qed.

(** A payload field that is there but does not decode (not a string, not
    ASCII, or base64 with a quad left open) is no soft failure: the
    [TypeError], [ValueError] or [binascii.Error] of [b64decode] leaves
    [_image_api_call]. *)
Theorem image_api_call_undecodable_payload_escapes
    (prompt : string) (lat : nat) (code : Z) (data v : json) (e : exn) :
  (lat ≤ HTTP_TIMEOUT)%nat →
  200 ≤ code ≤ 299 →
  payload_field data = Ok v →
  b64decode_value v = Raise e →
  _image_api_call prompt {| latency := lat; reply := Response code (Some data) |}
  = Raise e ∧
  (e = TypeError ∨ e = ValueError ∨ e = BinasciiError).
Proof.
  intros Hlat Hcode Hfield Hdecode.
  pose proof (b64decode_value_raises _ _ Hdecode) as He. split; [|done].
  unfold _image_api_call.
  rewrite client_post_response, bind_Ok by assumption.
  rewrite raise_for_status_success, bind_Ok by assumption.
  change (response_json {| status_code := code; body := Some data |}) with (Ok data).
  rewrite bind_Ok, Hfield, bind_Ok, Hdecode.
  by destruct He as [-> | [-> | ->]].
Qed.

Lemma image_api_call_undecodable_payload_escapes_witness :
  _image_api_call "sunset"
    {| latency := 7;
       reply := Response 200
         (Some (JObject [("artifacts", JArray [JObject [("base64", JString "TWFuQ")]])])) |}
  = Raise BinasciiError ∧
  (BinasciiError = TypeError ∨ BinasciiError = ValueError ∨
   BinasciiError = BinasciiError).
Proof.
  apply (image_api_call_undecodable_payload_escapes "sunset" 7 200
           (JObject [("artifacts", JArray [JObject [("base64", JString "TWFuQ")]])])
           (JString "TWFuQ") BinasciiError).
  - unfold HTTP_TIMEOUT. lia.
  - lia.
  - reflexivity.
  - reflexivity.
Defined.

(** The decoder does not see the characters outside its alphabet. *)
Lemma a2b_loop_discard_ignored (s : string) :
  ∀ st : a2b_state, a2b_loop (discard_ignored s) st = a2b_loop s st.
Proof.
  induction s as [|ch s IH]; intros st; [reflexivity|].
  cbn [discard_ignored a2b_loop]. unfold is_base64_char.
  destruct (Ascii.eqb ch BASE64_PAD) eqn:Hpad.
  - cbn [orb a2b_loop]. rewrite Hpad.
    destruct ((2 <=? quad_pos st) && (4 <=? quad_pos st + (pads st + 1)));
      [reflexivity | apply IH].
  - cbn [orb]. destruct (table_a2b_base64 ch) as [v|] eqn:Htable.
    + cbn [a2b_loop]. rewrite Hpad, Htable. apply IH.
    + apply IH.
Qed.

Lemma is_ascii_text_discard_ignored (s : string) :
  is_ascii_text s = true → is_ascii_text (discard_ignored s) = true.
Proof.
  unfold is_ascii_text.
  induction s as [|ch s IH]; [done|].
  cbn [list_ascii_of_string forallb discard_ignored].
  intros H. apply andb_true_iff in H as [Hch Hs].
  destruct (is_base64_char ch); [|by apply IH].
  cbn [list_ascii_of_string forallb]. rewrite Hch. by apply IH.
Qed.

(** [base64.b64decode] is called without [validate]: line breaks, spaces
    and every other ASCII character outside the base64 alphabet in the
    payload are discarded, and the payload decodes as if they were not
    there. *)
Theorem b64decode_ignores_other_characters (s : string) :
  is_ascii_text s = true →
  b64decode s = b64decode (discard_ignored s).
Proof.
  intros Hascii. unfold b64decode, a2b_base64.
  rewrite Hascii, (is_ascii_text_discard_ignored s Hascii).
  symmetry. apply a2b_loop_discard_ignored.
Qed.

Lemma b64decode_ignores_other_characters_witness :
  b64decode ("TW" ++ String (ascii_of_nat 10) "Fu")%string
  = b64decode (discard_ignored ("TW" ++ String (ascii_of_nat 10) "Fu")%string).
Proof. apply b64decode_ignores_other_characters. reflexivity. Defined.

End ProviderExtra.

(** ** [cancel_command] *)

Module BotExtra.
Import Provider Bot BotFacts.
Local Open Scope nat_scope.
Local Open Scope list_scope.

(** [cancel_command] as the flow under study, written out. *)
Lemma cancel_command_eq (st : state) :
  cancel_command bot_call st =
  match user_data st !! "active_task" with
  | Some (VTask handle) =>
      Some (match (next_call st).2 with None => Ok END | Some e => Raise e end,
            after_call (ReplyText "Action cancelled." main_menu_markup)
              (cancel_at handle st))
  | Some (VHistory _) => Some (Raise AttributeError, st)
  | None =>
      Some (match (next_call st).2 with None => Ok END | Some e => Raise e end,
            after_call (ReplyText "Action cancelled." main_menu_markup) st)
  end.
Proof.
  unfold cancel_command, contains, getitem_user_data.
  rewrite M_bind_eq. rewrite (M_bind_eq get_state). unfold get_state at 1.
  cbn [mret M_ret].
  destruct (user_data st !! "active_task") as [[handle|h]|] eqn:Hud.
  - rewrite bool_decide_eq_true_2 by eauto.
    rewrite !M_bind_eq. unfold get_state at 1. rewrite Hud. cbn [mret M_ret].
    unfold task_cancel at 1, modify at 1. rewrite M_bind_eq, reply_text_eq.
    assert (next_call (cancel_at handle st) = next_call st) as ->.
    { unfold next_call. by destruct (cancel_at_fields handle st) as (_ & _ & _ & ->). }
    by destruct (next_call st).2.
  - rewrite bool_decide_eq_true_2 by eauto.
    rewrite !M_bind_eq. unfold get_state at 1. rewrite Hud. reflexivity.
  - rewrite bool_decide_eq_false_2 by (intros [? ?]; discriminate).
    rewrite M_bind_eq. cbn [mret M_ret]. rewrite M_bind_eq, reply_text_eq.
    by destruct (next_call st).2.
Qed.

(** Whatever is in the session, [cancel_command] is [later] for every
    task. *)
Lemma later_cancel_command (handle : nat) (st st' : state) (r : result conv_result) :
  cancel_command bot_call st = Some (r, st') → later handle st st'.
Proof.
  rewrite cancel_command_eq.
  destruct (user_data st !! "active_task") as [[h|h]|]; intros [= <- <-].
  - eapply later_trans; [apply later_cancel_at | apply later_after_call].
  - apply later_refl.
  - apply later_after_call.
Qed.

(** A pending task in the active slot is cancelled by [cancel_command]:
    afterwards it is done and awaiting it raises [CancelledError].  The
    command returns [END] unless its reply fails. *)
Theorem cancel_command_cancels_pending_task
    (st : state) (handle : nat) (t : task) :
  user_data st !! "active_task" = Some (VTask handle) →
  tasks st !! handle = Some t →
  done_at handle st = false →
  ∃ r st',
    cancel_command bot_call st = Some (r, st') ∧
    done_at handle st' = true ∧
    result_at handle st' = Raise CancelledError ∧
    r = match (next_call st).2 with None => Ok END | Some e => Raise e end.
Proof.
  intros Hud Ht Hpending. rewrite cancel_command_eq, Hud.
  eexists _, _. split; [reflexivity|].
  assert (done_at handle (cancel_at handle st) = true ∧
          result_at handle (cancel_at handle st) = Raise CancelledError) as [Hd Hr].
  { unfold cancel_at. rewrite Ht.
    unfold done_at in Hpending. rewrite Ht in Hpending. rewrite Hpending.
    unfold done_at, result_at. cbn [tasks set_tasks].
    rewrite list_lookup_insert_eq by (by eapply lookup_lt_Some). done. }
  destruct (later_done handle _ _
              (later_after_call handle
                 (ReplyText "Action cancelled." main_menu_markup)
                 (cancel_at handle st)) Hd) as (Hd' & Hr').
  split; [done|]. split; [congruence | done].
Qed.

Lemma cancel_command_cancels_pending_task_witness :
  ∃ r st',
    cancel_command bot_call stalled_session = Some (r, st') ∧
    done_at 0 st' = true ∧
    result_at 0 st' = Raise CancelledError ∧
    r = Raise TimedOut.
Proof.
  apply (cancel_command_cancels_pending_task stalled_session 0
           {| finish_at := 100; outcome := Ok None; cancelled := false |});
    reflexivity.
Defined.

(** A task that is done keeps its result through [cancel_command], in the
    active slot or not: a Cancel after the image is there loses nothing, and
    a second Cancel changes nothing. *)
Theorem cancel_command_keeps_finished_task
    (st st' : state) (handle : nat) (r : result conv_result) :
  done_at handle st = true →
  cancel_command bot_call st = Some (r, st') →
  done_at handle st' = true ∧ result_at handle st' = result_at handle st.
Proof.
  intros Hdone Hrun. eapply later_done; [|done]. by eapply later_cancel_command.
Qed.

Lemma cancel_command_keeps_finished_task_witness :
  ∃ st',
    cancel_command bot_call finished_session = Some (Ok END, st') ∧
    done_at 0 st' = true ∧
    result_at 0 st' = result_at 0 finished_session.
Proof.
  eexists. split; [vm_compute; reflexivity|].
  apply (cancel_command_keeps_finished_task finished_session _ 0 (Ok END)).
  - reflexivity.
  - vm_compute. reflexivity.
Defined.

(** While no task is stored in the active slot, time passing cancels
    nothing. *)
Lemma tick_tasks_no_active (st : state) :
  user_data st !! "active_task" = None → tasks (tick st) = tasks st.
Proof.
  intros Hud.
  destruct (tick_cases st) as [-> | [-> | [-> | (handle & Hh & _)]]];
    [done | done | done | congruence].
Qed.

Lemma sleep_tasks_no_active (d : nat) (st : state) :
  user_data st !! "active_task" = None → tasks (sleep d st) = tasks st.
Proof.
  intros Hud. induction d as [|d IH]; [done|].
  change (sleep (S d) st) with (tick (sleep d st)).
  rewrite tick_tasks_no_active; [done|].
  by destruct (later_sleep 0 d st) as (_ & -> & _).
Qed.

(** Without a task in the active slot [cancel_command] touches no task: it
    answers and ends the conversation. *)
Theorem cancel_command_without_task (st : state) :
  user_data st !! "active_task" = None →
  ∃ st',
    cancel_command bot_call st =
      Some (match (next_call st).2 with None => Ok END | Some e => Raise e end, st') ∧
    tasks st' = tasks st ∧
    user_data st' = user_data st.
Proof.
  intros Hud. rewrite cancel_command_eq, Hud.
  eexists. split; [reflexivity|]. split.
  - unfold after_call. by rewrite sleep_tasks_no_active.
  - by destruct (later_after_call 0
        (ReplyText "Action cancelled." main_menu_markup) st) as (_ & -> & _).
Qed.

Lemma cancel_command_without_task_witness :
  ∃ st',
    cancel_command bot_call (session slow_provider [] None) = Some (Ok END, st') ∧
    tasks st' = tasks (session slow_provider [] None) ∧
    user_data st' = user_data (session slow_provider [] None).
Proof.
  apply (cancel_command_without_task (session slow_provider [] None)).
  reflexivity.
Defined.

End BotExtra.

(** ** What the image flow sends and what it leaves alone *)

Module FlowExtra.
Import Provider Bot BotFacts.
Local Open Scope nat_scope.
Local Open Scope list_scope.

Lemma grows_refl (P : bot_request → Prop) (st : state) : grows P st st.
Proof. exists []. by rewrite app_nil_r. Qed.

Lemma grows_trans (P : bot_request → Prop) (st1 st2 st3 : state) :
  grows P st1 st2 → grows P st2 st3 → grows P st1 st3.
Proof.
  intros (new1 & H1 & F1) (new2 & H2 & F2). exists (new1 ++ new2).
  split; [by rewrite H2, H1, app_assoc | by apply Forall_app].
Qed.

Lemma grows_same_outbox (P : bot_request → Prop) (st st' : state) :
  outbox st' = outbox st → grows P st st'.
Proof. intros H. exists []. by rewrite app_nil_r. Qed.

Section Requests.
Variable P : bot_request → Prop.
Hypothesis P_reply : ∀ text mk, P (ReplyText text mk).

Lemma grows_tick (st : state) : grows P st (tick st).
Proof.
  destruct (tick_cases st) as [-> | [-> | [-> | (handle & _ & ->)]]].
  - by apply grows_same_outbox.
  - by apply grows_same_outbox.
  - exists [(ReplyText "Action cancelled." main_menu_markup, None)].
    split; [reflexivity | apply Forall_singleton, P_reply].
  - exists [(ReplyText "Action cancelled." main_menu_markup, None)]. split.
    + rewrite outbox_log_call.
      by destruct (cancel_at_fields handle
        (set_cancel_press None (set_clock (S (clock st)) st))) as (_ & _ & -> & _).
    + apply Forall_singleton, P_reply.
Qed.

Lemma grows_sleep (d : nat) (st : state) : grows P st (sleep d st).
Proof.
  induction d as [|d IH]; [apply grows_refl|].
  change (sleep (S d) st) with (tick (sleep d st)).
  eapply grows_trans; [exact IH | apply grows_tick].
Qed.

Lemma grows_wait_ticks (n : nat) (is_done : state → bool) (st : state) :
  grows P st (wait_ticks n is_done st).
Proof.
  revert st. induction n as [|n IH]; intros st; cbn.
  - destruct (is_done st); apply grows_refl.
  - destruct (is_done st); [apply grows_refl|].
    eapply grows_trans; [apply grows_tick | apply IH].
Qed.

Lemma grows_after_call (req : bot_request) (st : state) :
  P req → grows P st (after_call req st).
Proof.
  intros Hreq. unfold after_call.
  eapply grows_trans; [|apply grows_sleep].
  exists [(req, (next_call st).2)].
  split; [reflexivity | by apply Forall_singleton].
Qed.

End Requests.

Lemma flow_request_reply (msg : nat) (prompt : string) (v : option (list byte))
    (text : string) (mk : markup) :
  flow_request msg prompt v (ReplyText text mk).
Proof. done. Qed.

(** The loop sends edits of the status message and replies only. *)
Lemma progress_loop_grows (msg : nat) (prompt : string) (v : option (list byte))
    (fuel : nat) :
  ∀ (handle i : nat) (st st' : state) (r : result (option conv_result)),
    progress_loop fuel handle msg i st = Some (r, st') →
    grows (flow_request msg prompt v) st st'.
Proof.
  pose proof (flow_request_reply msg prompt v) as Hreply.
  induction fuel as [|fuel IH]; intros handle i st st' r Hrun; [discriminate|].
  destruct (done_at handle st) eqn:Hdone.
  { rewrite progress_loop_done in Hrun by done. injection Hrun as <- <-.
    apply grows_refl. }
  rewrite progress_loop_pending in Hrun by done. cbv zeta in Hrun.
  set (st1 := wait_ticks POLL_TIMEOUT (done_at handle) st) in *.
  assert (grows (flow_request msg prompt v) st st1) as G1
    by by apply grows_wait_ticks.
  assert (∀ text s, grows (flow_request msg prompt v) s
                      (after_call (EditMessageText text msg) s)) as Gedit.
  { intros text s. by apply grows_after_call. }
  destruct (if done_at handle st1 then result_at handle st1 else Raise TimeoutError)
    as [x|e].
  - eapply grows_trans; [exact G1 | by eapply IH].
  - destruct e; try (injection Hrun as <- <-; exact G1).
    + destruct (next_call st1).2 as [e|].
      * destruct (is_BadRequest e).
        -- eapply grows_trans; [exact G1|].
           eapply grows_trans; [apply Gedit | by eapply IH].
        -- injection Hrun as <- <-. eapply grows_trans; [exact G1 | apply Gedit].
      * eapply grows_trans; [exact G1|].
        eapply grows_trans; [apply Gedit | by eapply IH].
    + assert (grows (flow_request msg prompt v) st
                (after_call (EditMessageText cancelled_text msg) st1)) as G2
        by (eapply grows_trans; [exact G1 | apply Gedit]).
      destruct (next_call st1).2 as [e|]; [by injection Hrun as <- <-|].
      destruct (next_call _).2 as [e|]; injection Hrun as <- <-;
        (eapply grows_trans; [exact G2 | by apply grows_after_call]).
Qed.

(** Photo or apology: the only photo is [image_bytes], with the caption of
    [prompt]. *)
Lemma send_image_grows (msg : nat) (prompt : string)
    (image_bytes : option (list byte)) (st st' : state) (r : result unit) :
  send_image prompt image_bytes st = Some (r, st') →
  grows (flow_request msg prompt image_bytes) st st'.
Proof.
  pose proof (flow_request_reply msg prompt image_bytes) as Hreply.
  unfold send_image. destruct image_bytes as [photo|].
  - assert (grows (flow_request msg prompt (Some photo)) st
              (after_call (SendPhoto photo (photo_caption prompt)) st)) as G1
      by by apply grows_after_call.
    rewrite try_catch_eq. unfold send_photo, bot_call.
    destruct (next_call st).2 as [e|]; [|by intros [= <- <-]].
    destruct (is_TimedOut e).
    { rewrite M_bind_eq, reply_text_eq.
      destruct (next_call _).2; intros [= <- <-];
        (eapply grows_trans; [exact G1 | by apply grows_after_call]). }
    destruct (is_Exception e); [|by intros [= <- <-]].
    rewrite M_bind_eq, reply_text_eq.
    destruct (next_call _).2; intros [= <- <-];
      (eapply grows_trans; [exact G1 | by apply grows_after_call]).
  - rewrite M_bind_eq, reply_text_eq.
    destruct (next_call st).2; intros [= <- <-]; by apply grows_after_call.
Qed.

(** After the loop: the deletion of the status message, the photo the task
    returned or the apology, and the menu; the active slot is cleared or, if
    the task raised, left. *)
Lemma relay_result_grows (prompt : string) (handle msg : nat)
    (st st' : state) (r : result conv_result) :
  relay_result prompt handle msg st = Some (r, st') →
  done_at handle st = true →
  grows (flow_request msg prompt (returned_bytes handle st)) st st' ∧
  result_at handle st' = result_at handle st ∧
  (user_data st' = user_data st ∨
   user_data st' = delete "active_task" (user_data st)).
Proof.
  intros Hrun Hdone.
  pose proof (flow_request_reply msg prompt (returned_bytes handle st)) as Hreply.
  unfold relay_result in Hrun. rewrite M_bind_eq in Hrun.
  change (task_result handle st) with (Some (result_at handle st, st)) in Hrun.
  unfold returned_bytes in *.
  destruct (result_at handle st) as [v|e] eqn:Hres.
  2: { injection Hrun as <- <-. split; [apply grows_refl|]. split; [done | by left]. }
  rewrite M_bind_eq, delitem_user_data_eq in Hrun.
  destruct (user_data st !! "active_task") as [a|] eqn:Hud.
  2: { injection Hrun as <- <-. split; [apply grows_refl|]. split; [done | by left]. }
  set (st1 := set_user_data (delete "active_task" (user_data st)) st) in *.
  assert (done_at handle st1 = true) as Hdone1 by exact Hdone.
  rewrite M_bind_eq in Hrun. unfold delete_message, bot_call in Hrun.
  set (st2 := after_call (DeleteMessage msg) st1) in *.
  assert (later handle st1 st2) as L2 by apply later_after_call.
  assert (grows (flow_request msg prompt v) st st2) as G2.
  { apply (grows_trans _ st st1 st2); [by apply grows_same_outbox|].
    by apply grows_after_call. }
  (* the three facts for a state later than [st1] *)
  assert (∀ s, later handle st1 s → grows (flow_request msg prompt v) st s →
            grows (flow_request msg prompt v) st s ∧
            result_at handle s = Ok v ∧
            (user_data s = user_data st ∨
             user_data s = delete "active_task" (user_data st))) as Hfin.
  { intros s L G. split; [done|].
    destruct (later_done handle st1 s L Hdone1) as (_ & ->).
    split; [exact Hres|]. right. by destruct L as (_ & -> & _). }
  destruct (next_call st1).2 as [e|].
  { injection Hrun as <- <-. by apply Hfin. }
  rewrite M_bind_eq in Hrun.
  destruct (send_image_spec handle msg prompt v st2) as (r3 & st3 & Hsend & L3 & _).
  rewrite Hsend in Hrun.
  assert (grows (flow_request msg prompt v) st st3) as G3.
  { eapply grows_trans; [exact G2 | by eapply send_image_grows]. }
  assert (later handle st1 st3) as L13 by by eapply later_trans.
  destruct r3 as [[]|e].
  2: { injection Hrun as <- <-. by apply Hfin. }
  rewrite M_bind_eq, menu_command_eq in Hrun.
  assert (later handle st1
            (after_call (ReplyText "Here is the main menu:" main_menu_markup) st3)) as L4.
  { eapply later_trans; [exact L13 | apply later_after_call]. }
  assert (grows (flow_request msg prompt v) st
            (after_call (ReplyText "Here is the main menu:" main_menu_markup) st3)) as G4.
  { eapply grows_trans; [exact G3 | by apply grows_after_call]. }
  destruct (next_call st3).2; injection Hrun as <- <-; by apply Hfin.
Qed.

(** The requests of a run of the image flow and what it does to the
    session store. *)
Lemma generate_image_from_prompt_frame (fuel : nat) (prompt : string)
    (st st' : state) (r : result conv_result) :
  generate_image_from_prompt fuel prompt st = Some (r, st') →
  grows (flow_request (length (outbox st)) prompt
           (returned_bytes (length (tasks st)) st')) st st' ∧
  ∀ k, k ≠ "active_task" → user_data st' !! k = user_data st !! k.
Proof.
  intros Hrun.
  set (msg := length (outbox st)). set (handle := length (tasks st)).
  rewrite generate_image_from_prompt_eq in Hrun. cbv zeta in Hrun.
  set (st0 := after_call (ReplyText "`Initializing AI...`" NoMarkup) st) in *.
  pose proof (flow_request_reply msg prompt (returned_bytes handle st')) as Hreply.
  assert (grows (flow_request msg prompt (returned_bytes handle st')) st st0) as G0
    by by apply grows_after_call.
  destruct (later_after_call handle (ReplyText "`Initializing AI...`" NoMarkup) st)
    as (_ & Hud0 & Hlen0 & _). fold st0 in Hud0, Hlen0.
  destruct (next_call st).2 as [e|].
  { injection Hrun as <- <-. split; [exact G0|]. intros k _. by rewrite Hud0. }
  rewrite Hlen0 in Hrun. fold handle msg in Hrun.
  match type of Hrun with
  | context [progress_loop fuel handle msg 0 ?s] => set (st1 := s) in *
  end.
  assert (∀ k, k ≠ "active_task" → user_data st1 !! k = user_data st !! k) as Hud1.
  { intros k Hk. cbn. rewrite lookup_insert_ne by done. by rewrite Hud0. }
  assert (grows (flow_request msg prompt (returned_bytes handle st')) st st1) as G1.
  { eapply grows_trans; [exact G0 | by apply grows_same_outbox]. }
  destruct (progress_loop fuel handle msg 0 st1) as [[rl st2]|] eqn:Hloop; [|done].
  pose proof (progress_loop_grows msg prompt (returned_bytes handle st')
                _ _ _ _ _ _ Hloop) as G2.
  apply progress_loop_spec in Hloop as (L2 & n & fin & _ & Hend).
  assert (∀ k, k ≠ "active_task" → user_data st2 !! k = user_data st !! k) as Hud2.
  { intros k Hk. destruct L2 as (_ & -> & _). by apply Hud1. }
  destruct rl as [[ret|]|e]; cbn [loop_end] in Hend.
  - injection Hrun as <- <-. split; [by eapply grows_trans | done].
  - destruct Hend as (_ & Hdone).
    destruct (relay_result_grows _ _ _ _ _ _ Hrun Hdone) as (G3 & Hres & Hud3).
    split.
    + eapply grows_trans; [exact G1|]. eapply grows_trans; [exact G2|].
      unfold returned_bytes. by rewrite Hres.
    + intros k Hk. destruct Hud3 as [-> | ->]; [by apply Hud2|].
      rewrite lookup_delete_ne by done. by apply Hud2.
  - injection Hrun as <- <-. split; [by eapply grows_trans | done].
Qed.


(** Every run of the image flow, however it ends, leaves all of
    [context.user_data] but the [active_task] key as it was; the
    conversation history in particular is that of before. *)
Theorem image_flow_keeps_other_keys (fuel : nat) (prompt : string)
    (st st' : state) (r : result conv_result) :
  generate_image_from_prompt fuel prompt st = Some (r, st') →
  (∀ k, k ≠ "active_task" → user_data st' !! k = user_data st !! k) ∧
  stored_history st' = stored_history st.
Proof.
  intros Hrun.
  destruct (generate_image_from_prompt_frame _ _ _ _ _ Hrun) as (_ & Hud).
  split; [done|]. unfold stored_history. by rewrite Hud.
Qed.

Lemma image_flow_keeps_other_keys_witness :
  ∃ st',
    generate_image_from_prompt 40 "sunset"
      (set_user_data {["history" := VHistory [("user", "hi")]]}
         (session empty_provider [] None))
    = Some (Ok END, st') ∧
    (∀ k, k ≠ "active_task" →
       user_data st' !! k =
       user_data (set_user_data {["history" := VHistory [("user", "hi")]]}
                    (session empty_provider [] None)) !! k) ∧
    stored_history st' =
    stored_history (set_user_data {["history" := VHistory [("user", "hi")]]}
                      (session empty_provider [] None)).
Proof.
  eexists. split; [vm_compute; reflexivity|].
  apply (image_flow_keeps_other_keys 40 "sunset"
           (set_user_data {["history" := VHistory [("user", "hi")]]}
              (session empty_provider [] None)) _ (Ok END)).
  vm_compute. reflexivity.
Defined.

(** In every run of the image flow, the only message it edits or deletes is
    the status message it sent itself with its first reply. *)
Theorem image_flow_touches_own_message_only (fuel : nat) (prompt : string)
    (st st' : state) (r : result conv_result) :
  generate_image_from_prompt fuel prompt st = Some (r, st') →
  ∃ new,
    outbox st' = outbox st ++ new ∧
    ∀ (m : nat) (failure : option exn),
      ((∃ text, (EditMessageText text m, failure) ∈ new) ∨
       (DeleteMessage m, failure) ∈ new) →
      m = length (outbox st).
Proof.
  intros Hrun.
  destruct (generate_image_from_prompt_frame _ _ _ _ _ Hrun) as ((new & Hob & Hall) & _).
  exists new. split; [done|]. rewrite Forall_forall in Hall.
  intros m failure [(text & Hin) | Hin]; apply Hall in Hin; exact Hin.
Qed.

Lemma image_flow_touches_own_message_only_witness :
  ∃ st' new,
    generate_image_from_prompt 40 "sunset" (session empty_provider [] None)
    = Some (Ok END, st') ∧
    outbox st' = outbox (session empty_provider [] None) ++ new ∧
    ∀ (m : nat) (failure : option exn),
      ((∃ text, (EditMessageText text m, failure) ∈ new) ∨
       (DeleteMessage m, failure) ∈ new) →
      m = length (outbox (session empty_provider [] None)).
Proof.
  eexists.
  destruct (image_flow_touches_own_message_only 40 "sunset"
              (session empty_provider [] None) _ (Ok END)
              ltac:(vm_compute; reflexivity)) as (new & Hob & Hown).
  exists new. split; [vm_compute; reflexivity|]. split; [exact Hob | exact Hown].
Defined.

(** In every run of the image flow, a photo is sent only when the task
    returned image bytes, and then it is those bytes with the caption made
    from the prompt: nothing is sent as a photo for a task that was
    cancelled, raised or returned [None]. *)
Theorem image_flow_photo_is_task_result (fuel : nat) (prompt : string)
    (st st' : state) (r : result conv_result) :
  generate_image_from_prompt fuel prompt st = Some (r, st') →
  ∃ new,
    outbox st' = outbox st ++ new ∧
    ∀ (photo : list byte) (caption : string) (failure : option exn),
      (SendPhoto photo caption, failure) ∈ new →
      result_at (length (tasks st)) st' = Ok (Some photo) ∧
      caption = photo_caption prompt.
Proof.
  intros Hrun.
  destruct (generate_image_from_prompt_frame _ _ _ _ _ Hrun) as ((new & Hob & Hall) & _).
  exists new. split; [done|]. rewrite Forall_forall in Hall.
  intros photo caption failure Hin. apply Hall in Hin as [Hbytes ->].
  split; [|done]. unfold returned_bytes in Hbytes.
  destruct (result_at (length (tasks st)) st') as [v|e]; [by subst | discriminate].
Qed.

Lemma image_flow_photo_is_task_result_witness :
  ∃ st' new,
    generate_image_from_prompt 40 "a red fox"
      (session {| latency := 7; reply := image_reply "TWFu" |} [] None)
    = Some (Ok END, st') ∧
    outbox st' =
      outbox (session {| latency := 7; reply := image_reply "TWFu" |} [] None) ++ new ∧
    ∀ (photo : list byte) (caption : string) (failure : option exn),
      (SendPhoto photo caption, failure) ∈ new →
      result_at
        (length (tasks (session {| latency := 7; reply := image_reply "TWFu" |} [] None)))
        st' = Ok (Some photo) ∧
      caption = photo_caption "a red fox".
Proof.
  eexists.
  destruct (image_flow_photo_is_task_result 40 "a red fox"
              (session {| latency := 7; reply := image_reply "TWFu" |} [] None)
              _ (Ok END) ltac:(vm_compute; reflexivity)) as (new & Hob & Hphoto).
  exists new. split; [vm_compute; reflexivity|]. split; [exact Hob | exact Hphoto].
Defined.

Lemma returned_task_leaves_active_slot_witness :
  ∃ st',
    generate_image_from_prompt 40 "a red fox" finished_session = Some (Ok END, st') ∧
    user_data st' !! "active_task" = None.
Proof.
  eexists. split; [vm_compute; reflexivity|].
  apply (returned_task_leaves_active_slot 40 "a red fox" finished_session _
           (Some ["M"; "a"; "n"]%byte)); vm_compute; reflexivity.
Defined.

End FlowExtra.

(** ** Delivery of the photo *)

Module DeliveryExtra.
Import Provider Bot BotFacts.
Local Open Scope nat_scope.
Local Open Scope list_scope.

(** A failed upload of the photo does not fail the flow: for every failure
    that is an [Exception], [send_image] answers with an apology instead,
    the time-out text for [TimedOut] and the general text otherwise, and
    its outcome is that of the apology.  Only a [CancelledError] goes on. *)
Theorem send_image_recovers_from_upload_failure
    (prompt : string) (photo : list byte) (st : state) (e : exn) :
  (next_call st).2 = Some e →
  send_image prompt (Some photo) st =
  let st1 := after_call (SendPhoto photo (photo_caption prompt)) st in
  if is_Exception e then
    Some (match (next_call st1).2 with None => Ok tt | Some e' => Raise e' end,
          after_call
            (ReplyText (if is_TimedOut e then upload_timeout_text
                        else upload_error_text) NoMarkup) st1)
  else Some (Raise e, st1).
Proof.
  intros Hfail. unfold send_image. rewrite try_catch_eq.
  unfold send_photo, bot_call. rewrite Hfail. cbv zeta.
  destruct (is_TimedOut e) eqn:Htimed.
  - destruct e; try discriminate. cbn [is_Exception].
    rewrite M_bind_eq, reply_text_eq.
    destruct (next_call (after_call (SendPhoto photo (photo_caption prompt)) st)).2;
      reflexivity.
  - destruct (is_Exception e); [|reflexivity].
    rewrite M_bind_eq, reply_text_eq.
    destruct (next_call (after_call (SendPhoto photo (photo_caption prompt)) st)).2;
      reflexivity.
Qed.

Lemma send_image_recovers_from_upload_failure_witness :
  send_image "sunset" (Some ["M"; "a"; "n"]%byte) (session slow_provider [(5, Some TimedOut)] None)
  = Some (Ok tt,
          after_call (ReplyText upload_timeout_text NoMarkup)
            (after_call (SendPhoto ["M"; "a"; "n"]%byte (photo_caption "sunset"))
               (session slow_provider [(5, Some TimedOut)] None))).
Proof.
  apply (send_image_recovers_from_upload_failure "sunset" ["M"; "a"; "n"]%byte
           (session slow_provider [(5, Some TimedOut)] None) TimedOut).
  reflexivity.
Defined.

End DeliveryExtra.

(** ** The text flow *)

Module TextExtra.
Import Provider Bot BotFacts.
Local Open Scope nat_scope.
Local Open Scope list_scope.

Lemma sleep_script (d : nat) (st : state) : script (sleep d st) = script st.
Proof.
  induction d as [|d IH]; [done|].
  change (sleep (S d) st) with (tick (sleep d st)). by rewrite tick_script.
Qed.

Lemma after_call_script (req : bot_request) (st : state) :
  script (after_call req st) = tail (script st).
Proof. unfold after_call. by rewrite sleep_script. Qed.

Lemma sleep_user_data (d : nat) (st : state) : user_data (sleep d st) = user_data st.
Proof. by destruct (later_sleep 0 d st) as (_ & -> & _). Qed.

Lemma after_call_user_data (req : bot_request) (st : state) :
  user_data (after_call req st) = user_data st.
Proof. by destruct (later_after_call 0 req st) as (_ & -> & _). Qed.

Lemma calls_succeed_next (st : state) : calls_succeed st → (next_call st).2 = None.
Proof.
  unfold calls_succeed, next_call. destruct (script st) as [|call sc]; [done|].
  intros H. by apply Forall_cons in H as [H _].
Qed.

Lemma calls_succeed_tail (st st' : state) :
  script st' = tail (script st) → calls_succeed st → calls_succeed st'.
Proof.
  unfold calls_succeed. intros ->. destruct (script st) as [|call sc]; [done|].
  intros H. by apply Forall_cons in H as [_ H].
Qed.

Lemma calls_succeed_same (st st' : state) :
  script st' = script st → calls_succeed st → calls_succeed st'.
Proof. unfold calls_succeed. by intros ->. Qed.

(** What [text_apology] gives. *)
Lemma text_apology_eq (e : exn) (st : state) :
  text_apology e st =
  if is_Exception e then
    Some (match (next_call st).2 with None => Ok tt | Some e' => Raise e' end,
          after_call
            (ReplyText "Sorry, an error occurred with the text generation." NoMarkup) st)
  else Some (Raise e, st).
Proof.
  unfold text_apology. destruct (is_Exception e); [|done].
  rewrite M_bind_eq, reply_text_eq. by destruct (next_call st).2.
Qed.

Lemma text_apology_user_data (e : exn) (st st' : state) (r : result unit) :
  text_apology e st = Some (r, st') → user_data st' = user_data st.
Proof.
  rewrite text_apology_eq. destruct (is_Exception e); intros [= <- <-]; [|done].
  apply after_call_user_data.
Qed.

(** [handle_message], written out: the session when the text generation is
    called, and what follows each of its outcomes. *)
Lemma handle_message_eq
    (generate_text : list turn → string → result (string * list turn))
    (d : nat) (text : string) (st : state) :
  let st0 := after_call SendChatAction st in
  let st1 := match user_data st0 !! "history" with
             | Some _ => st0
             | None => set_user_data (<["history" := VHistory []]> (user_data st0)) st0
             end in
  handle_message generate_text d text st =
  match (next_call st).2 with
  | Some e => Some (Raise e, st0)
  | None =>
      match user_data st1 !! "history" with
      | Some (VHistory history) =>
          match generate_text history text with
          | Ok (response_text, chat_history) =>
              let st3 := set_user_data
                           (<["history" := VHistory chat_history]>
                              (user_data (sleep d st1))) (sleep d st1) in
              match (next_call st3).2 with
              | None => Some (Ok tt, after_call (ReplyText response_text NoMarkup) st3)
              | Some e =>
                  text_apology e (after_call (ReplyText response_text NoMarkup) st3)
              end
          | Raise e => text_apology e (sleep d st1)
          end
      | Some (VTask _) => text_apology TypeError st1
      | None => text_apology KeyError st1
      end
  end.
Proof.
  intros st0 st1. unfold handle_message, send_chat_action, contains.
  rewrite M_bind_eq. unfold bot_call at 1. fold st0.
  destruct (next_call st).2 as [e|]; [done|].
  rewrite !M_bind_eq. unfold get_state at 1. cbn [mret M_ret].
  assert (∀ s : state,
    try_catch
      (v ← getitem_user_data "history";
       match v with
       | VHistory history =>
           modify (sleep d);;
           '(response_text, chat_history) ← lift (generate_text history text);
           setitem_user_data "history" (VHistory chat_history);;
           reply_text bot_call response_text NoMarkup;;
           mret tt
       | VTask _ => raise TypeError
       end)
      (λ e,
         if is_Exception e
         then reply_text bot_call
                "Sorry, an error occurred with the text generation." NoMarkup;;
              mret tt
         else raise e) s =
    match user_data s !! "history" with
    | Some (VHistory history) =>
        match generate_text history text with
        | Ok (response_text, chat_history) =>
            let s3 := set_user_data
                        (<["history" := VHistory chat_history]>
                           (user_data (sleep d s))) (sleep d s) in
            match (next_call s3).2 with
            | None => Some (Ok tt, after_call (ReplyText response_text NoMarkup) s3)
            | Some e => text_apology e (after_call (ReplyText response_text NoMarkup) s3)
            end
        | Raise e => text_apology e (sleep d s)
        end
    | Some (VTask _) => text_apology TypeError s
    | None => text_apology KeyError s
    end) as Hbody.
  { intros s. rewrite try_catch_eq, M_bind_eq.
    unfold getitem_user_data. rewrite M_bind_eq. unfold get_state at 1.
    destruct (user_data s !! "history") as [[handle|history]|]; try reflexivity.
    cbn [mret M_ret]. rewrite M_bind_eq. unfold modify at 1.
    rewrite M_bind_eq. unfold lift at 1.
    destruct (generate_text history text) as [[response_text chat_history]|e];
      [|reflexivity].
    rewrite M_bind_eq. unfold setitem_user_data at 1, modify at 1.
    rewrite M_bind_eq, reply_text_eq. cbv zeta.
    by destruct (next_call _).2. }
  subst st1.
  destruct (user_data st0 !! "history") as [v|] eqn:Hh.
  - rewrite bool_decide_eq_true_2 by eauto.
    rewrite M_bind_eq. cbn [mret M_ret]. apply Hbody.
  - rewrite bool_decide_eq_false_2 by (intros [? ?]; discriminate).
    rewrite M_bind_eq. unfold setitem_user_data at 1, modify at 1. apply Hbody.
Qed.

Lemma handle_message_success
    (generate_text : list turn → string → result (string * list turn))
    (generate_text_duration : nat) (text : string) (st : state)
    (response_text : string) (chat_history : list turn) :
  (next_call st).2 = None →
  (∀ handle, user_data st !! "history" ≠ Some (VTask handle)) →
  generate_text (stored_history st) text = Ok (response_text, chat_history) →
  ∃ r st',
    handle_message generate_text generate_text_duration text st = Some (r, st') ∧
    user_data st' !! "history" = Some (VHistory chat_history) ∧
    stored_history st' = chat_history.
Proof.
  intros Hchat Htyped Hgen.
  rewrite handle_message_eq, Hchat. cbv zeta.
  set (st0 := after_call SendChatAction st).
  assert (user_data st0 = user_data st) as Hud0 by apply after_call_user_data.
  assert (∀ s', user_data s' !! "history" = Some (VHistory chat_history) →
            user_data s' !! "history" = Some (VHistory chat_history) ∧
            stored_history s' = chat_history) as Hstored.
  { intros s' Hs'. split; [done|]. unfold stored_history. by rewrite Hs'. }
  assert (∀ s, user_data s !! "history" = Some (VHistory (stored_history st)) →
            ∃ r st',
              match generate_text (stored_history st) text with
              | Ok (response_text, chat_history) =>
                  let st3 := set_user_data
                               (<["history" := VHistory chat_history]>
                                  (user_data (sleep generate_text_duration s)))
                               (sleep generate_text_duration s) in
                  match (next_call st3).2 with
                  | None => Some (Ok tt, after_call (ReplyText response_text NoMarkup) st3)
                  | Some e =>
                      text_apology e (after_call (ReplyText response_text NoMarkup) st3)
                  end
              | Raise e => text_apology e (sleep generate_text_duration s)
              end = Some (r, st') ∧
              user_data st' !! "history" = Some (VHistory chat_history) ∧
              stored_history st' = chat_history) as Hcall.
  { intros s Hs. rewrite Hgen. cbv zeta.
    match goal with
    | |- context [next_call ?s3] => set (st3 := s3)
    end.
    assert (user_data (after_call (ReplyText response_text NoMarkup) st3) !! "history"
            = Some (VHistory chat_history)) as H3.
    { rewrite after_call_user_data. cbn. apply lookup_insert_eq. }
    destruct (next_call st3).2 as [e|].
    - destruct (text_apology e (after_call (ReplyText response_text NoMarkup) st3))
        as [[r st']|] eqn:Hap.
      + exists r, st'. split; [done|]. apply Hstored.
        by rewrite (text_apology_user_data _ _ _ _ Hap).
      + rewrite text_apology_eq in Hap. by destruct (is_Exception e).
    - eexists _, _. split; [reflexivity|]. by apply Hstored. }
  destruct (user_data st0 !! "history") as [v|] eqn:Hh.
  - rewrite Hh. rewrite Hud0 in Hh. destruct v as [handle|history].
    + by destruct (Htyped handle).
    + assert (stored_history st = history) as Hst
        by (unfold stored_history; by rewrite Hh).
      rewrite <- Hst. apply Hcall. by rewrite Hud0, Hh, Hst.
  - cbn [user_data set_user_data]. rewrite lookup_insert_eq.
    rewrite Hud0 in Hh.
    assert (stored_history st = []) as Hst
      by (unfold stored_history; by rewrite Hh).
    rewrite <- Hst. apply Hcall. cbn. by rewrite lookup_insert_eq, Hst.
Qed.

(** When the text generation succeeds, the history stored in the session
    becomes the history of the chat, given to the next message; it is
    stored before the reply is sent, so it is there also when the reply to
    the user fails. *)
Theorem handle_message_stores_chat_history
    (generate_text : list turn → string → result (string * list turn))
    (generate_text_duration : nat) (text : string) (st : state)
    (response_text : string) (chat_history : list turn) :
  (next_call st).2 = None →
  (∀ handle, user_data st !! "history" ≠ Some (VTask handle)) →
  generate_text (stored_history st) text = Ok (response_text, chat_history) →
  ∃ r st',
    handle_message generate_text generate_text_duration text st = Some (r, st') ∧
    user_data st' !! "history" = Some (VHistory chat_history) ∧
    stored_history st' = chat_history.
Proof. apply handle_message_success. Qed.

Lemma handle_message_stores_chat_history_witness :
  ∃ r st',
    handle_message echo_text_model 20 "hello" (session slow_provider [] None)
    = Some (r, st') ∧
    user_data st' !! "history" =
      Some (VHistory [("user", "hello"); ("model", "You said: hello")]) ∧
    stored_history st' = [("user", "hello"); ("model", "You said: hello")].
Proof.
  apply (handle_message_stores_chat_history echo_text_model 20 "hello"
           (session slow_provider [] None) "You said: hello").
  - reflexivity.
  - intros handle. vm_compute. discriminate.
  - reflexivity.
Defined.

(** Every run of [handle_message], however it ends, leaves all of
    [context.user_data] but the [history] key as it was: the text flow never
    touches the task in the active slot. *)
Theorem handle_message_keeps_other_keys
    (generate_text : list turn → string → result (string * list turn))
    (generate_text_duration : nat) (text : string) (st st' : state)
    (r : result unit) :
  handle_message generate_text generate_text_duration text st = Some (r, st') →
  ∀ k, k ≠ "history" → user_data st' !! k = user_data st !! k.
Proof.
  rewrite handle_message_eq. cbv zeta.
  set (st0 := after_call SendChatAction st).
  assert (user_data st0 = user_data st) as Hud0 by apply after_call_user_data.
  intros Hrun k Hk.
  destruct (next_call st).2 as [e|]; [injection Hrun as <- <-; by rewrite Hud0|].
  match type of Hrun with
  | context [text_apology TypeError ?s] => set (st1 := s) in *
  end.
  assert (user_data st1 !! k = user_data st !! k) as Hud1.
  { subst st1. destruct (user_data st0 !! "history").
    - by rewrite Hud0.
    - cbn. rewrite lookup_insert_ne by done. by rewrite Hud0. }
  destruct (user_data st1 !! "history") as [[handle|history]|].
  - by rewrite (text_apology_user_data _ _ _ _ Hrun).
  - destruct (generate_text history text) as [[response_text chat_history]|e].
    + cbv zeta in Hrun.
      match type of Hrun with
      | context [next_call ?s3] => set (st3 := s3) in *
      end.
      assert (user_data st3 !! k = user_data st !! k) as Hud3.
      { subst st3. cbn. rewrite lookup_insert_ne by done.
        by rewrite sleep_user_data. }
      destruct (next_call st3).2 as [e|].
      * by rewrite (text_apology_user_data _ _ _ _ Hrun), after_call_user_data.
      * injection Hrun as <- <-. by rewrite after_call_user_data.
    + by rewrite (text_apology_user_data _ _ _ _ Hrun), sleep_user_data.
  - by rewrite (text_apology_user_data _ _ _ _ Hrun).
Qed.

Lemma handle_message_keeps_other_keys_witness :
  ∃ st',
    handle_message echo_text_model 20 "hello" finished_session = Some (Ok tt, st') ∧
    ∀ k, k ≠ "history" → user_data st' !! k = user_data finished_session !! k.
Proof.
  eexists. split; [vm_compute; reflexivity|].
  apply (handle_message_keeps_other_keys echo_text_model 20 "hello"
           finished_session _ (Ok tt)).
  vm_compute. reflexivity.
Defined.

(** While the messaging platform works (every Bot API call of the script
    succeeds), [handle_message] never raises an [Exception] of the text
    generation: whatever the generation does, the handler returns, having
    answered the user with the reply or with the apology. *)
Theorem handle_message_returns_when_platform_works
    (generate_text : list turn → string → result (string * list turn))
    (generate_text_duration : nat) (text : string) (st : state) :
  calls_succeed st →
  (∀ history e, generate_text history text = Raise e → is_Exception e = true) →
  ∃ st', handle_message generate_text generate_text_duration text st = Some (Ok tt, st').
Proof.
  intros Hcalls Hgen. rewrite handle_message_eq. cbv zeta.
  rewrite (calls_succeed_next st Hcalls).
  set (st0 := after_call SendChatAction st).
  assert (calls_succeed st0) as Hc0
    by (eapply calls_succeed_tail; [apply after_call_script | done]).
  match goal with
  | |- context [text_apology TypeError ?s] => set (st1 := s)
  end.
  assert (calls_succeed st1) as Hc1.
  { subst st1. by destruct (user_data st0 !! "history"). }
  assert (∀ e s, is_Exception e = true → calls_succeed s →
            ∃ st', text_apology e s = Some (Ok tt, st')) as Hap.
  { intros e s He Hs. rewrite text_apology_eq, He, (calls_succeed_next s Hs). eauto. }
  destruct (user_data st1 !! "history") as [[handle|history]|].
  - by apply Hap.
  - destruct (generate_text history text) as [[response_text chat_history]|e] eqn:Hg.
    + cbv zeta. rewrite calls_succeed_next; [eauto|].
      eapply calls_succeed_same; [|exact Hc1]. cbn. apply sleep_script.
    + apply Hap; [by eapply Hgen|].
      eapply calls_succeed_same; [apply sleep_script | done].
  - by apply Hap.
Qed.

Lemma handle_message_returns_when_platform_works_witness :
  ∃ st', handle_message failing_text_model 20 "hello" (session slow_provider [] None)
         = Some (Ok tt, st').
Proof.
  apply (handle_message_returns_when_platform_works failing_text_model 20 "hello"
           (session slow_provider [] None)).
  - apply Forall_nil_2.
  - intros history e [= <-]. reflexivity.
Defined.


(** [clear_command] removes the history whether or not its reply goes
    through. *)
Lemma clear_command_removes_history (st st1 : state) (r : result unit) :
  clear_command bot_call st = Some (r, st1) →
  user_data st1 !! "history" = None.
Proof.
  unfold clear_command, contains.
  rewrite !M_bind_eq. unfold get_state at 1. cbn [mret M_ret].
  destruct (user_data st !! "history") as [v|] eqn:Hh.
  - rewrite bool_decide_eq_true_2 by eauto.
    rewrite M_bind_eq, delitem_user_data_eq, Hh, M_bind_eq, reply_text_eq.
    destruct (next_call _).2; intros [= <- <-];
      rewrite after_call_user_data; apply lookup_delete_eq.
  - rewrite bool_decide_eq_false_2 by (intros [? ?]; discriminate).
    rewrite M_bind_eq, reply_text_eq.
    destruct (next_call _).2; intros [= <- <-];
      by rewrite after_call_user_data.
Qed.

(** Clear, then a message: whatever history was stored, and whether or not
    the confirmation of the clearing went through, the text generation of
    the next message starts from the empty history, and what is stored
    afterwards is the history of that one exchange. *)
Theorem clear_then_message_starts_fresh
    (generate_text : list turn → string → result (string * list turn))
    (generate_text_duration : nat) (text : string) (st st1 : state)
    (r : result unit) (response_text : string) (chat_history : list turn) :
  clear_command bot_call st = Some (r, st1) →
  (next_call st1).2 = None →
  generate_text [] text = Ok (response_text, chat_history) →
  ∃ r' st',
    handle_message generate_text generate_text_duration text st1 = Some (r', st') ∧
    stored_history st' = chat_history.
Proof.
  intros Hclear Hchat Hgen.
  pose proof (clear_command_removes_history _ _ _ Hclear) as Hnone.
  destruct (handle_message_success generate_text generate_text_duration text st1
              response_text chat_history Hchat) as (r' & st' & Hrun & _ & Hst).
  - intros handle. by rewrite Hnone.
  - unfold stored_history. by rewrite Hnone.
  - eauto.
Qed.

Lemma clear_then_message_starts_fresh_witness :
  ∃ st1 r' st',
    clear_command bot_call
      (set_user_data {["history" := VHistory [("user", "old"); ("model", "older")]]}
         (session slow_provider [] None)) = Some (Ok tt, st1) ∧
    handle_message echo_text_model 20 "hello" st1 = Some (r', st') ∧
    stored_history st' = [("user", "hello"); ("model", "You said: hello")].
Proof.
  eassert (clear_command bot_call
             (set_user_data
                {["history" := VHistory [("user", "old"); ("model", "older")]]}
                (session slow_provider [] None)) = Some (Ok tt, _)) as Hclear
    by (vm_compute; reflexivity).
  destruct (clear_then_message_starts_fresh echo_text_model 20 "hello" _ _ _
              "You said: hello" [("user", "hello"); ("model", "You said: hello")]
              Hclear eq_refl eq_refl) as (r' & st' & Hrun & Hst).
  eexists _, r', st'. split; [exact Hclear|]. split; [exact Hrun | exact Hst].
Defined.

End TextExtra.

(** ** The image flow when nothing goes wrong *)

Module CalmExtra.
Import Provider Bot BotFacts TextExtra.
Local Open Scope nat_scope.
Local Open Scope list_scope.

Lemma calm_tick (st : state) :
  cancel_press st = None → tick st = set_clock (S (clock st)) st.
Proof. intros H. unfold tick. cbn [cancel_press set_clock]. by rewrite H. Qed.

Lemma calm_sleep (d : nat) (st : state) :
  cancel_press st = None → sleep d st = set_clock (clock st + d) st.
Proof.
  intros H. induction d as [|d IH].
  - destruct st. unfold sleep, set_clock. cbn. by rewrite Nat.add_0_r.
  - change (sleep (S d) st) with (tick (sleep d st)).
    rewrite IH, calm_tick by done. unfold set_clock. cbn. f_equal. lia.
Qed.

Lemma quietly_refl (st : state) : calm st → quietly [] st st.
Proof. intros H. repeat split; try done; [by rewrite app_nil_r | apply H | apply H]. Qed.

Lemma quietly_trans (new1 new2 : list bot_request) (st1 st2 st3 : state) :
  quietly new1 st1 st2 → quietly new2 st2 st3 → quietly (new1 ++ new2) st1 st3.
Proof.
  intros (Ht1 & Hu1 & Hc1 & Ho1 & _) (Ht2 & Hu2 & Hc2 & Ho2 & Hcalm).
  repeat split; try apply Hcalm; [congruence | congruence | lia |].
  by rewrite Ho2, Ho1, map_app, app_assoc.
Qed.

Lemma quietly_set_clock (n : nat) (st : state) :
  calm st → clock st ≤ n → quietly [] st (set_clock n st).
Proof.
  intros [Hp Hc] Hn. repeat split; try done. cbn. by rewrite app_nil_r.
Qed.

Lemma quietly_wait_ticks (n : nat) (is_done : state → bool) :
  ∀ st, calm st → quietly [] st (wait_ticks n is_done st).
Proof.
  induction n as [|n IH]; intros st Hcalm; cbn.
  - destruct (is_done st); by apply quietly_refl.
  - destruct (is_done st); [by apply quietly_refl|].
    rewrite calm_tick by apply Hcalm.
    assert (quietly [] st (set_clock (S (clock st)) st)) as Q
      by (apply quietly_set_clock; [done | lia]).
    apply (quietly_trans [] [] _ _ _ Q). apply IH. apply Q.
Qed.

(** In a calm session a Bot API call succeeds and only adds its request to
    the outbox. *)
Lemma quietly_after_call (req : bot_request) (st : state) :
  calm st →
  (next_call st).2 = None ∧ quietly [req] st (after_call req st).
Proof.
  intros [Hp Hc]. pose proof (calls_succeed_next st Hc) as Hnext.
  split; [done|]. unfold after_call. rewrite Hnext.
  rewrite calm_sleep by done.
  repeat split; try done; cbn; [lia|].
  eapply calls_succeed_tail; [|exact Hc]. reflexivity.
Qed.

Lemma quietly_later (handle : nat) (new : list bot_request) (st st' : state) :
  quietly new st st' → later handle st st'.
Proof.
  intros (Ht & Hu & Hc & _). repeat split; [done | done | by rewrite Ht |].
  intros t H. rewrite Ht. eauto.
Qed.

Lemma result_at_finished (handle : nat) (st : state) (t : task) :
  tasks st !! handle = Some t → cancelled t = false →
  done_at handle st = true → result_at handle st = outcome t.
Proof.
  unfold done_at, result_at, task_is_done. intros -> ->. cbn [orb].
  by intros ->.
Qed.

(** The loop of a calm session: the spinner edits, all delivered, until the
    task is done. *)
Lemma progress_loop_calm (fuel : nat) :
  ∀ (handle msg i : nat) (st : state) (t : task) (v : option (list byte)),
    calm st →
    tasks st !! handle = Some t →
    cancelled t = false →
    outcome t = Ok v →
    1 ≤ fuel →
    done_at handle st = true ∨ finish_at t + 2 ≤ clock st + fuel →
    ∃ n st',
      progress_loop fuel handle msg i st = Some (Ok None, st') ∧
      quietly (map (spinner_edit msg) (seq i n)) st st' ∧
      done_at handle st' = true ∧
      (n = 0 ∨ clock st + POLL_TIMEOUT * n < finish_at t).
Proof.
  induction fuel as [|fuel IH];
    intros handle msg i st t v Hcalm Ht Hcan Hout Hfuel Henough; [lia|].
  destruct (done_at handle st) eqn:Hdone.
  { exists 0, st. rewrite progress_loop_done by done.
    split; [done|]. split; [by apply quietly_refl|]. split; [done | by left]. }
  destruct Henough as [?|Henough]; [done|].
  pose proof (done_at_pending _ _ _ Ht Hdone) as Hpending.
  rewrite progress_loop_pending by done. cbv zeta.
  set (st1 := wait_ticks POLL_TIMEOUT (done_at handle) st).
  assert (quietly [] st st1) as Q1 by by apply quietly_wait_ticks.
  assert (tasks st1 !! handle = Some t) as Ht1
    by (destruct Q1 as (-> & _); done).
  assert (calm st1) as Hcalm1 by apply Q1.
  destruct (done_at handle st1) eqn:Hd1.
  - (* the task finished during the wait *)
    assert (result_at handle st1 = Ok v) as ->
      by (rewrite <- Hout; by apply result_at_finished).
    destruct (IH handle msg i st1 t v Hcalm1 Ht1 Hcan Hout ltac:(lia) (or_introl Hd1))
      as (n & st' & -> & Q2 & Hd' & Hn).
    exists n, st'. split; [done|]. split; [|split; [done|]].
    + apply (quietly_trans [] _ _ _ _ Q1 Q2).
    + destruct Q1 as (_ & _ & Hc1 & _). destruct Hn as [->|Hn]; [by left | right; lia].
  - (* the poll timed out *)
    assert (clock st1 = clock st + POLL_TIMEOUT) as Hclock
      by by apply wait_ticks_clock_pending.
    destruct (quietly_after_call (spinner_edit msg i) st1 Hcalm1) as (-> & Q2).
    set (st2 := after_call (spinner_edit msg i) st1) in *.
    assert (tasks st2 !! handle = Some t) as Ht2
      by (destruct Q2 as (-> & _); done).
    assert (clock st + POLL_TIMEOUT < finish_at t) as Hstill.
    { rewrite <- Hclock. by apply (done_at_pending handle st1 t). }
    destruct (IH handle msg (i + 1) st2 t v ltac:(apply Q2) Ht2 Hcan Hout)
      as (n & st' & -> & Q3 & Hd' & Hn); [lia| |].
    { right. destruct Q2 as (_ & _ & Hc2 & _).
      unfold POLL_TIMEOUT in Hclock. lia. }
    exists (S n), st'. split; [done|]. split; [|split; [done|]].
    + pose proof (quietly_trans _ _ _ _ _ Q1 (quietly_trans _ _ _ _ _ Q2 Q3)) as Q.
      rewrite Nat.add_1_r in Q. exact Q.
    + right. destruct Q2 as (_ & _ & Hc2 & _).
      destruct Hn as [->|Hn]; unfold POLL_TIMEOUT in *; lia.
Qed.

(** After the loop in a calm session: the deletion, the photo or the
    apology, the menu. *)
Lemma relay_result_calm (prompt : string) (handle msg : nat) (st : state)
    (v : option (list byte)) :
  calm st →
  result_at handle st = Ok v →
  done_at handle st = true →
  is_Some (user_data st !! "active_task") →
  ∃ st',
    relay_result prompt handle msg st = Some (Ok END, st') ∧
    user_data st' = delete "active_task" (user_data st) ∧
    result_at handle st' = Ok v ∧
    outbox st' =
      outbox st ++
      [(DeleteMessage msg, None);
       (result_request prompt v, None);
       (ReplyText "Here is the main menu:" main_menu_markup, None)].
Proof.
  intros Hcalm Hres Hdone [a Hud].
  unfold relay_result. rewrite M_bind_eq.
  change (task_result handle st) with (Some (result_at handle st, st)).
  rewrite Hres, M_bind_eq, delitem_user_data_eq, Hud.
  set (st1 := set_user_data (delete "active_task" (user_data st)) st).
  assert (calm st1) as Hcalm1 by exact Hcalm.
  rewrite M_bind_eq. unfold delete_message, bot_call.
  destruct (quietly_after_call (DeleteMessage msg) st1 Hcalm1) as (-> & Q2).
  set (st2 := after_call (DeleteMessage msg) st1) in *.
  rewrite M_bind_eq.
  destruct (quietly_after_call (result_request prompt v) st2 ltac:(apply Q2))
    as (Hnext2 & Q3).
  set (st3 := after_call (result_request prompt v) st2) in *.
  assert (send_image prompt v st2 = Some (Ok tt, st3)) as ->.
  { unfold send_image. destruct v as [photo|].
    - rewrite try_catch_eq. unfold send_photo, bot_call. by rewrite Hnext2.
    - rewrite M_bind_eq, reply_text_eq, Hnext2. reflexivity. }
  rewrite M_bind_eq, menu_command_eq.
  destruct (quietly_after_call
              (ReplyText "Here is the main menu:" main_menu_markup) st3
              ltac:(apply Q3)) as (-> & Q4).
  eexists. split; [reflexivity|].
  pose proof (quietly_trans _ _ _ _ _ Q2 (quietly_trans _ _ _ _ _ Q3 Q4)) as Q.
  split; [by destruct Q as (_ & -> & _)|]. split.
  - destruct (later_done handle st1 _ (quietly_later handle _ _ _ Q) Hdone) as (_ & ->).
    exact Hres.
  - by destruct Q as (_ & _ & _ & -> & _).
Qed.

(** The flow from the prompt to the photo.  In a session in which nobody
    presses Cancel and every Bot API call succeeds, whenever the provider
    call returns (the image bytes or [None]), the handler returns [END]; it
    made, in this order and nothing else, its first reply, the spinner
    edits with counters 0..n-1, the deletion of the status message, the
    photo with the returned bytes and the caption of the prompt (or the
    apology when it returned [None]), and the menu; the active slot is
    empty again; and there is at most one spinner edit per 0.3 s of the
    provider call. *)
Theorem image_flow_completes_when_calm
    (fuel : nat) (prompt : string) (st : state) (v : option (list byte)) :
  HTTP_TIMEOUT + 2 ≤ fuel →
  calm st →
  _image_api_call prompt (image_provider st) = Ok v →
  ∃ (n : nat) (st' : state),
    generate_image_from_prompt fuel prompt st = Some (Ok END, st') ∧
    outbox st' =
      outbox st ++
      map (λ req, (req, None))
        ([ReplyText "`Initializing AI...`" NoMarkup] ++
         map (spinner_edit (length (outbox st))) (seq 0 n) ++
         [DeleteMessage (length (outbox st));
          result_request prompt v;
          ReplyText "Here is the main menu:" main_menu_markup]) ∧
    user_data st' = delete "active_task" (user_data st) ∧
    result_at (length (tasks st)) st' = Ok v ∧
    POLL_TIMEOUT * n ≤ _image_api_call_duration (image_provider st).
Proof.
  intros Hfuel Hcalm Hcall.
  rewrite generate_image_from_prompt_eq. cbv zeta.
  destruct (quietly_after_call (ReplyText "`Initializing AI...`" NoMarkup) st Hcalm)
    as (-> & Q0).
  set (st0 := after_call (ReplyText "`Initializing AI...`" NoMarkup) st) in *.
  destruct Q0 as (Ht0 & Hu0 & Hc0 & Ho0 & Hcalm0).
  assert (image_provider st0 = image_provider st) as Hprov.
  { subst st0. unfold after_call.
    rewrite calm_sleep by apply Hcalm. reflexivity. }
  rewrite Ht0, Hprov, Hcall.
  set (msg := length (outbox st)). set (handle := length (tasks st)).
  set (t := {| finish_at := clock st0 + _image_api_call_duration (image_provider st);
               outcome := Ok v; cancelled := false |}).
  set (st1 := set_user_data (<["active_task" := VTask handle]> (user_data st0))
                (set_tasks (tasks st ++ [t]) st0)).
  assert (calm st1) as Hcalm1 by exact Hcalm0.
  assert (tasks st1 !! handle = Some t) as Ht1.
  { cbn. by rewrite lookup_app_r, Nat.sub_diag. }
  destruct (progress_loop_calm fuel handle msg 0 st1 t v Hcalm1 Ht1 eq_refl eq_refl)
    as (n & st2 & -> & Q2 & Hdone2 & Hn); [lia| |].
  { right. cbn. unfold _image_api_call_duration, post_duration.
    pose proof (Nat.le_min_r (latency (image_provider st)) HTTP_TIMEOUT). lia. }
  destruct Q2 as (Ht2 & Hu2 & Hc2 & Ho2 & Hcalm2).
  assert (result_at handle st2 = Ok v) as Hres2.
  { apply (result_at_finished handle st2 t); [by rewrite Ht2 | done | done]. }
  destruct (relay_result_calm prompt handle msg st2 v Hcalm2 Hres2 Hdone2)
    as (st3 & -> & Hu3 & Hres3 & Ho3).
  { rewrite Hu2. cbn. rewrite lookup_insert_eq. eauto. }
  exists n, st3. split; [done|]. split; [|split; [|split; [done|]]].
  - rewrite Ho3, Ho2.
    change (outbox st1) with (outbox st0). rewrite Ho0.
    rewrite !map_app, <- !app_assoc. reflexivity.
  - rewrite Hu3, Hu2. cbn. rewrite Hu0. apply delete_insert_eq.
  - unfold POLL_TIMEOUT in *. destruct Hn as [->|Hn]; [lia|].
    change (clock st1) with (clock st0) in Hn.
    change (finish_at t)
      with (clock st0 + _image_api_call_duration (image_provider st)) in Hn.
    lia.
Qed.

Lemma image_flow_completes_when_calm_witness :
  ∃ (n : nat) (st' : state),
    generate_image_from_prompt 1802 "a red fox"
      (session {| latency := 7; reply := image_reply "TWFu" |} [] None)
    = Some (Ok END, st') ∧
    outbox st' =
      outbox (session {| latency := 7; reply := image_reply "TWFu" |} [] None) ++
      map (λ req, (req, None))
        ([ReplyText "`Initializing AI...`" NoMarkup] ++
         map (spinner_edit
                (length (outbox (session {| latency := 7; reply := image_reply "TWFu" |}
                                   [] None))))
             (seq 0 n) ++
         [DeleteMessage
            (length (outbox (session {| latency := 7; reply := image_reply "TWFu" |}
                               [] None)));
          result_request "a red fox" (Some ["M"; "a"; "n"]%byte);
          ReplyText "Here is the main menu:" main_menu_markup]) ∧
    user_data st' =
      delete "active_task"
        (user_data (session {| latency := 7; reply := image_reply "TWFu" |} [] None)) ∧
    result_at
      (length (tasks (session {| latency := 7; reply := image_reply "TWFu" |} [] None)))
      st' = Ok (Some ["M"; "a"; "n"]%byte) ∧
    POLL_TIMEOUT * n ≤
      _image_api_call_duration
        (image_provider (session {| latency := 7; reply := image_reply "TWFu" |} [] None)).
Proof.
  apply (image_flow_completes_when_calm 1802 "a red fox"
           (session {| latency := 7; reply := image_reply "TWFu" |} [] None)
           (Some ["M"; "a"; "n"]%byte)).
  - unfold HTTP_TIMEOUT. lia.
  - split; [reflexivity | apply Forall_nil_2].
  - reflexivity.
Defined.

End CalmExtra.
